(** * frontend-asset-proxy: the S3 proxying engine and its status translation

    A shallow embedding of [internal/s3] (ProxyS3, s3ErrorToStatus, JoinPath,
    setHeaderFromStringPtr) and of the route handlers registered in
    [cmd/proxy/main.go], followed by the properties the specification states
    about them. *)

From Stdlib Require Import ZArith Ascii String DecimalString DecimalPos.
From stdpp Require Import base option list strings gmap.
From Equations Require Import Equations.

Local Open Scope string_scope.
Local Open Scope Z_scope.

(** ** Go strings: the functions of package [strings] the proxy uses *)

Module GoStrings.

Definition len (s : string) : Z := Z.of_nat (String.length s).

(** [s[n:]] *)
Fixpoint drop (n : nat) (s : string) : string :=
  match n, s with
  | O, _ => s
  | S _, EmptyString => EmptyString
  | S n', String _ s' => drop n' s'
  end.

(** [s[:n]] *)
Fixpoint take (n : nat) (s : string) : string :=
  match n, s with
  | O, _ => EmptyString
  | S _, EmptyString => EmptyString
  | S n', String c s' => String c (take n' s')
  end.

Fixpoint HasPrefix (s p : string) {struct p} : bool :=
  match p with
  | EmptyString => true
  | String a p' =>
      match s with
      | EmptyString => false
      | String b s' => if Ascii.eqb a b then HasPrefix s' p' else false
      end
  end.

Definition HasSuffix (s p : string) : bool :=
  let n := String.length s in
  let m := String.length p in
  if (m <=? n)%nat then String.eqb (drop (n - m) s) p else false.

Definition TrimPrefix (s p : string) : string :=
  if HasPrefix s p then drop (String.length p) s else s.

(** Index of the first occurrence of [c], or [-1]. *)
Fixpoint IndexByte (s : string) (c : ascii) : Z :=
  match s with
  | EmptyString => -1
  | String b s' =>
      if Ascii.eqb b c then 0
      else let i := IndexByte s' c in if i <? 0 then -1 else i + 1
  end.

(** Index of the last occurrence of [c], or [-1]. *)
Fixpoint LastIndexByte (s : string) (c : ascii) : Z :=
  match s with
  | EmptyString => -1
  | String b s' =>
      let i := LastIndexByte s' c in
      if 0 <=? i then i + 1 else if Ascii.eqb b c then 0 else -1
  end.

End GoStrings.

(** ** JoinPath *)

Definition JoinPath (a b : string) : string :=
  if GoStrings.HasSuffix a "/" && GoStrings.HasPrefix b "/" then
    a +:+ GoStrings.drop 1 b
  else if negb (GoStrings.HasSuffix a "/") && negb (GoStrings.HasPrefix b "/") then
    a +:+ "/" +:+ b
  else
    a +:+ b.

(** ** Go errors as the AWS SDK produces them

    An error value is a chain linked by [Unwrap].  The constructors are the
    error types [s3ErrorToStatus] can tell apart:
    - [DeadlineExceeded]: the sentinel [context.DeadlineExceeded];
    - [errorString]: [errors.New], an error of no particular type;
    - [wrapError]: [fmt.Errorf] with [%w], any wrapper of no particular type;
    - [GenericAPIError]: a value implementing [smithy.APIError]
      ([smithy.GenericAPIError], or a typed error such as [types.NoSuchKey],
      represented by its [ErrorCode()]); it wraps nothing;
    - [ResponseError]: [smithyhttp.ResponseError], whose [Response] pointer may
      be nil and whose [Err] is the wrapped error;
    - [OperationError]: [smithy.OperationError], whose [Err] may be nil. *)

Record Response : Type := { StatusCode : Z }.

#[warnings="-register-all"] Inductive error : Type :=
| DeadlineExceeded
| errorString (s : string)
| wrapError (msg : string) (err : error)
| GenericAPIError (Code Message : string)
| ResponseError (Resp : option Response) (Err : option error)
| OperationError (ServiceID OperationName : string) (Err : option error).

(** [errors.Is(err, context.DeadlineExceeded)] *)
Fixpoint Is_DeadlineExceeded (err : error) : bool :=
  match err with
  | DeadlineExceeded => true
  | wrapError _ e => Is_DeadlineExceeded e
  | ResponseError _ (Some e) => Is_DeadlineExceeded e
  | OperationError _ _ (Some e) => Is_DeadlineExceeded e
  | _ => false
  end.

(** [errors.As(err, &respErr)] for [*smithyhttp.ResponseError]: the first
    ResponseError of the chain, given by its [Response] field. *)
Fixpoint As_ResponseError (err : error) : option (option Response) :=
  match err with
  | ResponseError resp _ => Some resp
  | wrapError _ e => As_ResponseError e
  | OperationError _ _ (Some e) => As_ResponseError e
  | _ => None
  end.

(** [errors.As(err, &opErr)] for [*smithy.OperationError]: the first
    OperationError of the chain, given by its [Err] field. *)
Fixpoint As_OperationError (err : error) : option (option error) :=
  match err with
  | OperationError _ _ e => Some e
  | wrapError _ e => As_OperationError e
  | ResponseError _ (Some e) => As_OperationError e
  | _ => None
  end.

(** [errors.As(err, &apiErr)] for the interface [smithy.APIError], given by
    [apiErr.ErrorCode()]. *)
Fixpoint As_APIError (err : error) : option string :=
  match err with
  | GenericAPIError code _ => Some code
  | wrapError _ e => As_APIError e
  | ResponseError _ (Some e) => As_APIError e
  | OperationError _ _ (Some e) => As_APIError e
  | _ => None
  end.

(** Number of links of the chain; the measure of [s3ErrorToStatus]. *)
Fixpoint chain_length (err : error) : nat :=
  match err with
  | wrapError _ e => S (chain_length e)
  | ResponseError _ (Some e) => S (chain_length e)
  | OperationError _ _ (Some e) => S (chain_length e)
  | _ => 1%nat
  end.

(** Induction along the chain (the generated principle does not descend
    through the optional [Err] fields). *)
Lemma error_chain_ind (P : error → Prop) :
  P DeadlineExceeded →
  (∀ s, P (errorString s)) →
  (∀ msg e, P e → P (wrapError msg e)) →
  (∀ code msg, P (GenericAPIError code msg)) →
  (∀ resp, P (ResponseError resp None)) →
  (∀ resp e, P e → P (ResponseError resp (Some e))) →
  (∀ sid op, P (OperationError sid op None)) →
  (∀ sid op e, P e → P (OperationError sid op (Some e))) →
  ∀ err, P err.
Proof.
  intros Hde Hs Hw Hapi Hr0 Hr Ho0 Ho.
  fix IH 1. intros [ | s | msg e | code msg | resp [e|] | sid op [e|] ].
  - exact Hde.
  - apply Hs.
  - apply Hw, IH.
  - apply Hapi.
  - apply Hr, IH.
  - apply Hr0.
  - apply Ho, IH.
  - apply Ho0.
Qed.

Lemma As_OperationError_shorter (err inner : error) :
  As_OperationError err = Some (Some inner) →
  (chain_length inner < chain_length err)%nat.
Proof.
  induction err using error_chain_ind; simpl; intros H;
    try discriminate; try (specialize (IHerr H); lia).
  injection H as ->. lia.
Qed.

(** ** s3ErrorToStatus *)

Definition StatusBadRequest : Z := 400.
Definition StatusForbidden : Z := 403.
Definition StatusNotFound : Z := 404.
Definition StatusRequestTimeout : Z := 408.
Definition StatusPreconditionFailed : Z := 412.
Definition StatusRequestedRangeNotSatisfiable : Z := 416.
Definition StatusInternalServerError : Z := 500.
Definition StatusBadGateway : Z := 502.
Definition StatusServiceUnavailable : Z := 503.
Definition StatusGatewayTimeout : Z := 504.
Definition StatusOK : Z := 200.
Definition StatusMethodNotAllowed : Z := 405.

Definition code_in (code : string) (cases : list string) : bool :=
  existsb (String.eqb code) cases.

(** The [switch apiErr.ErrorCode()] of [s3ErrorToStatus]; [None] when no case
    matches and control falls out of the switch. *)
Definition ErrorCode_switch (code : string) : option Z :=
  if code_in code ["NoSuchBucket"; "NoSuchKey"; "NotFound"; "NoSuchVersion"] then
    Some StatusNotFound
  else if code_in code ["AccessDenied"; "Forbidden"; "SignatureDoesNotMatch";
                        "InvalidAccessKeyId"; "ExpiredToken";
                        "RequestTimeTooSkewed"; "InvalidObjectState"] then
    Some StatusForbidden
  else if code_in code ["PreconditionFailed"] then
    Some StatusPreconditionFailed
  else if code_in code ["InvalidRange"] then
    Some StatusRequestedRangeNotSatisfiable
  else if code_in code ["AuthorizationHeaderMalformed"; "InvalidRequest";
                        "InvalidArgument"; "MalformedXML"] then
    Some StatusBadRequest
  else if code_in code ["RequestTimeout"] then
    Some StatusRequestTimeout
  else if code_in code ["SlowDown"; "ServiceUnavailable"] then
    Some StatusServiceUnavailable
  else if code_in code ["InternalError"] then
    Some StatusInternalServerError
  else None.

Definition inspect {A : Type} (a : A) : {b : A | a = b} := exist _ a eq_refl.

Equations? s3ErrorToStatus (err : error) : Z by wf (chain_length err) lt :=
  s3ErrorToStatus err with Is_DeadlineExceeded err => {
    | true => StatusGatewayTimeout
    | false with As_ResponseError err => {
      | Some (Some resp) => StatusCode resp
      | _ with inspect (As_OperationError err) => {
        (* unwrap smithy OperationError to its underlying error and re-map *)
        | exist _ (Some (Some inner)) Hop => s3ErrorToStatus inner
        | _ with As_APIError err => {
          | Some code => default StatusBadGateway (ErrorCode_switch code)
          | None => StatusBadGateway } } } }.
Proof. all: by apply As_OperationError_shorter. Qed.

(** ** net/url: PathUnescape *)

Definition ishex (c : ascii) : bool :=
  let n := nat_of_ascii c in
  ((48 <=? n) && (n <=? 57) || (97 <=? n) && (n <=? 102)
   || (65 <=? n) && (n <=? 70))%nat.

Definition unhex (c : ascii) : nat :=
  let n := nat_of_ascii c in
  if ((48 <=? n) && (n <=? 57))%nat then n - 48
  else if ((97 <=? n) && (n <=? 102))%nat then n - 97 + 10
  else if ((65 <=? n) && (n <=? 70))%nat then n - 65 + 10
  else 0.

(** [url.PathUnescape]: every [%XY] becomes the byte it denotes; a [%] not
    followed by two hexadecimal digits is an error ([None]). *)
Fixpoint PathUnescape (s : string) : option string :=
  match s with
  | EmptyString => Some EmptyString
  | String c rest =>
      if Ascii.eqb c "%" then
        match rest with
        | String a (String b rest') =>
            if ishex a && ishex b then
              String (ascii_of_nat (unhex a * 16 + unhex b)) <$> PathUnescape rest'
            else None
        | _ => None
        end
      else String c <$> PathUnescape rest
  end.

(** ** net/http: headers, status texts, the response writer *)

(** [http.Header]; keys are in canonical form, as the server stores them and
    as the proxy spells them. *)
Abbreviation Header := (gmap string (list string)).

Definition Header_Get (h : Header) (key : string) : string :=
  match h !! key with
  | Some (v :: _) => v
  | _ => ""
  end.

Definition Header_Set (h : Header) (key value : string) : Header :=
  <[key := [value]]> h.

Definition Header_Del (h : Header) (key : string) : Header := delete key h.

Definition MethodGet : string := "GET".
Definition MethodHead : string := "HEAD".

(** [http.StatusText] *)
Definition StatusText (code : Z) : string :=
  match code with
  | 100 => "Continue"
  | 101 => "Switching Protocols"
  | 102 => "Processing"
  | 103 => "Early Hints"
  | 200 => "OK"
  | 201 => "Created"
  | 202 => "Accepted"
  | 203 => "Non-Authoritative Information"
  | 204 => "No Content"
  | 205 => "Reset Content"
  | 206 => "Partial Content"
  | 207 => "Multi-Status"
  | 208 => "Already Reported"
  | 226 => "IM Used"
  | 300 => "Multiple Choices"
  | 301 => "Moved Permanently"
  | 302 => "Found"
  | 303 => "See Other"
  | 304 => "Not Modified"
  | 305 => "Use Proxy"
  | 307 => "Temporary Redirect"
  | 308 => "Permanent Redirect"
  | 400 => "Bad Request"
  | 401 => "Unauthorized"
  | 402 => "Payment Required"
  | 403 => "Forbidden"
  | 404 => "Not Found"
  | 405 => "Method Not Allowed"
  | 406 => "Not Acceptable"
  | 407 => "Proxy Authentication Required"
  | 408 => "Request Timeout"
  | 409 => "Conflict"
  | 410 => "Gone"
  | 411 => "Length Required"
  | 412 => "Precondition Failed"
  | 413 => "Request Entity Too Large"
  | 414 => "Request URI Too Long"
  | 415 => "Unsupported Media Type"
  | 416 => "Requested Range Not Satisfiable"
  | 417 => "Expectation Failed"
  | 418 => "I'm a teapot"
  | 421 => "Misdirected Request"
  | 422 => "Unprocessable Entity"
  | 423 => "Locked"
  | 424 => "Failed Dependency"
  | 425 => "Too Early"
  | 426 => "Upgrade Required"
  | 428 => "Precondition Required"
  | 429 => "Too Many Requests"
  | 431 => "Request Header Fields Too Large"
  | 451 => "Unavailable For Legal Reasons"
  | 500 => "Internal Server Error"
  | 501 => "Not Implemented"
  | 502 => "Bad Gateway"
  | 503 => "Service Unavailable"
  | 504 => "Gateway Timeout"
  | 505 => "HTTP Version Not Supported"
  | 506 => "Variant Also Negotiates"
  | 507 => "Insufficient Storage"
  | 508 => "Loop Detected"
  | 510 => "Not Extended"
  | 511 => "Network Authentication Required"
  | _ => ""
  end.

(** [strconv.FormatInt(n, 10)] *)
Definition FormatInt (n : Z) : string := NilZero.string_of_int (Z.to_int n).

(** [*http.Request]: the fields the handlers read. *)
Record Request : Type := {
  Method : string;
  URL_Path : string;
  Req_Header : Header;
}.

(** The [http.ResponseWriter] the handlers write to, as the recorder of
    [net/http/httptest] keeps it: the status code, the header map, the bytes
    written to the body, and whether the status line has been written.  It
    records what a handler writes; what the server then puts on the wire (no
    body in the answer to a HEAD) is outside the model. *)
Record ResponseRecorder : Type := {
  Code : Z;
  HeaderMap : Header;
  Body : string;
  wroteHeader : bool;
}.

Definition NewRecorder : ResponseRecorder :=
  {| Code := 200; HeaderMap := ∅; Body := ""; wroteHeader := false |}.

(** ** Configuration and the S3 client *)

(** [time.Time], as an instant in seconds since the epoch. *)
Definition Time : Type := Z.

(** The two functions of the HTTP-date format ([http.ParseTime] and
    [Time.UTC().Format(http.TimeFormat)]) are taken as given. *)
Class HTTPDate : Type := {
  ParseTime : string → option Time;
  FormatHTTPTime : Time → string;
}.

(** [config.FrontendAssetProxyConfig]: the fields the proxy core reads. *)
Record FrontendAssetProxyConfig : Type := {
  BucketPathPrefix : string;
  SPAEntrypointPath : string;
  ProxiedRequestTimeout : Z;
}.

(** [s3.GetObjectInput]; a nil pointer field is [None]. *)
Record GetObjectInput : Type := {
  Bucket : string;
  Key : string;
  Range : option string;
  IfNoneMatch : option string;
  IfMatch : option string;
  IfModifiedSince : option Time;
  IfUnmodifiedSince : option Time;
}.

(** [s3.GetObjectOutput]; [ObjBody] is the byte stream the body reader
    yields. *)
Record GetObjectOutput : Type := {
  ObjBody : string;
  ContentType : option string;
  ETag : option string;
  CacheControl : option string;
  ContentEncoding : option string;
  ContentDisposition : option string;
  ContentLanguage : option string;
  ExpiresString : option string;
  AcceptRanges : option string;
  ContentLength : option Z;
  LastModified : option Time;
}.

(** The object-store client, as the test double of the repository has it: one
    function for [GetObject].  Its first argument is the list of the requests
    already issued while serving the current inbound request, so that the
    answer to a repeated request may differ from the first.  [inl] is an object
    with a nil error, [inr] a non-nil error. *)
Record S3Client : Type := {
  GetObjectFunc : list GetObjectInput → GetObjectInput → GetObjectOutput + error;
}.

(** ** Handlers as state transformers

    A handler runs on the response recorder and on the log of the upstream
    requests it has issued; it either returns or panics (as
    [WriteHeader] does on a status code outside 100..999). *)

Record World : Type := {
  w : ResponseRecorder;
  calls : list GetObjectInput;
}.

Inductive result (A : Type) : Type :=
| Ok (a : A)
| Panic (msg : string).
Arguments Ok {A} a.
Arguments Panic {A} msg.

Definition M (A : Type) : Type := World → result A * World.

#[global] Instance M_ret : MRet M := λ A a σ, (Ok a, σ).
#[global] Instance M_bind : MBind M := λ A B f m σ,
  match m σ with
  | (Ok a, σ') => f a σ'
  | (Panic msg, σ') => (Panic msg, σ')
  end.

Definition panic {A : Type} (msg : string) : M A := λ σ, (Panic msg, σ).

Definition modify_w (f : ResponseRecorder → ResponseRecorder) : M unit :=
  λ σ, (Ok tt, {| w := f (w σ); calls := calls σ |}).

Definition get_w : M ResponseRecorder := λ σ, (Ok (w σ), σ).

(** [w.Header().Set(key, value)] *)
Definition w_Header_Set (key value : string) : M unit :=
  modify_w (λ rw, {| Code := Code rw;
                     HeaderMap := Header_Set (HeaderMap rw) key value;
                     Body := Body rw; wroteHeader := wroteHeader rw |}).

(** [w.Header().Del(key)] *)
Definition w_Header_Del (key : string) : M unit :=
  modify_w (λ rw, {| Code := Code rw;
                     HeaderMap := Header_Del (HeaderMap rw) key;
                     Body := Body rw; wroteHeader := wroteHeader rw |}).

(** [w.WriteHeader(code)] *)
Definition WriteHeader (code : Z) : M unit :=
  rw ← get_w;
  if wroteHeader rw then mret tt
  else if (code <? 100) || (999 <? code) then
    panic "invalid WriteHeader code"
  else
    modify_w (λ rw, {| Code := code; HeaderMap := HeaderMap rw;
                       Body := Body rw; wroteHeader := true |}).

(** [w.Write(p)]; no handler writes before it has called [WriteHeader], and
    the recorder's guess of a content type on such a first write is left
    out. *)
Definition Write (p : string) : M unit :=
  rw ← get_w;
  (if wroteHeader rw then mret tt else WriteHeader StatusOK);;
  modify_w (λ rw, {| Code := Code rw; HeaderMap := HeaderMap rw;
                     Body := Body rw +:+ p; wroteHeader := wroteHeader rw |}).

(** [http.Error(w, error, code)] *)
Definition http_Error (error : string) (code : Z) : M unit :=
  w_Header_Del "Content-Length";;
  w_Header_Set "Content-Type" "text/plain; charset=utf-8";;
  w_Header_Set "X-Content-Type-Options" "nosniff";;
  WriteHeader code;;
  Write (error +:+ String (ascii_of_nat 10) "").

(** [s3c.GetObject(ctx, in)]: the request is logged and answered. *)
Definition GetObject (s3c : S3Client) (input : GetObjectInput)
  : M (GetObjectOutput + error) :=
  λ σ, (Ok (GetObjectFunc s3c (calls σ) input),
        {| w := w σ; calls := calls σ ++ [input] |}).

(** setHeaderFromStringPtr sets a response header if the provided value is
    non-nil. *)
Definition setHeaderFromStringPtr (key : string) (val : option string) : M unit :=
  match val with
  | Some v => w_Header_Set key v
  | None => mret tt
  end.

(** ** ProxyS3 *)

(** The fallback re-enters ProxyS3 only on the SPA path and only from a
    different path: the number of re-entries still possible from [full]. *)
Definition fallback_budget (cfg : FrontendAssetProxyConfig) (full : string) : nat :=
  if decide (full = JoinPath (BucketPathPrefix cfg) (SPAEntrypointPath cfg))
  then 0 else 1.

Lemma fallback_budget_decreases (cfg : FrontendAssetProxyConfig) (full : string) :
  full ≠ JoinPath (BucketPathPrefix cfg) (SPAEntrypointPath cfg) →
  (fallback_budget cfg (JoinPath (BucketPathPrefix cfg) (SPAEntrypointPath cfg))
   < fallback_budget cfg full)%nat.
Proof.
  intros Hne. unfold fallback_budget.
  destruct (decide (JoinPath _ _ = JoinPath _ _)); [|done].
  destruct (decide (full = _)); [done|lia].
Qed.

Section Proxy.
Context `{HTTPDate}.

(** ProxyS3 resolves bucket/key from full path "/bucket/..." and streams from
    S3/MinIO.

    Left out: the debug log lines, the context with its timeout (a fetch that
    runs out of time is the client answering with a deadline error) and the
    closing of the object body. *)
Equations? ProxyS3 (r : Request) (s3c : S3Client) (cfg : FrontendAssetProxyConfig)
  (full : string) : M unit by wf (fallback_budget cfg full) lt :=
  ProxyS3 r s3c cfg full :=
    let path := GoStrings.TrimPrefix full "/" in
    let idx := GoStrings.IndexByte path "/" in
    if (idx <=? 0) || (idx >=? GoStrings.len path - 1) then
      http_Error "bad request" StatusBadRequest
    else
      let bucket := GoStrings.take (Z.to_nat idx) path in
      let key := GoStrings.drop (Z.to_nat (idx + 1)) path in
      let key := match PathUnescape key with Some ukey => ukey | None => key end in
      (* Honor basic conditional and range headers *)
      let v_range := Header_Get (Req_Header r) "Range" in
      let v_inm := Header_Get (Req_Header r) "If-None-Match" in
      let v_im := Header_Get (Req_Header r) "If-Match" in
      let v_ims := Header_Get (Req_Header r) "If-Modified-Since" in
      let v_ius := Header_Get (Req_Header r) "If-Unmodified-Since" in
      let input :=
        {| Bucket := bucket;
           Key := key;
           Range := if decide (v_range ≠ "") then Some v_range else None;
           IfNoneMatch := if decide (v_inm ≠ "") then Some v_inm else None;
           IfMatch := if decide (v_im ≠ "") then Some v_im else None;
           IfModifiedSince := if decide (v_ims ≠ "") then ParseTime v_ims else None;
           IfUnmodifiedSince := if decide (v_ius ≠ "") then ParseTime v_ius else None |} in
      res ← GetObject s3c input;
      match res with
      | inr err =>
          (* Map common S3 errors to HTTP status *)
          let status := s3ErrorToStatus err in
          let finalFailure := http_Error (StatusText status) status in
          (* Optional SPA fallback: on 403/404, serve SPA entry if configured *)
          if (status =? StatusNotFound) || (status =? StatusForbidden) then
            let spa := SPAEntrypointPath cfg in
            if decide (spa ≠ "") then
              let spaPath := JoinPath (BucketPathPrefix cfg) spa in
              match decide (full = spaPath) with
              | right Hne => (* guard against recursive fallback *)
                  ProxyS3 r s3c cfg spaPath
              | left _ => finalFailure
              end
            else finalFailure
          else finalFailure
      | inl obj =>
          w_Header_Set "Vary" "Accept-Encoding";;
          setHeaderFromStringPtr "Content-Type" (ContentType obj);;
          setHeaderFromStringPtr "ETag" (ETag obj);;
          setHeaderFromStringPtr "Cache-Control" (CacheControl obj);;
          setHeaderFromStringPtr "Content-Encoding" (ContentEncoding obj);;
          setHeaderFromStringPtr "Content-Disposition" (ContentDisposition obj);;
          setHeaderFromStringPtr "Content-Language" (ContentLanguage obj);;
          setHeaderFromStringPtr "Expires" (ExpiresString obj);;
          setHeaderFromStringPtr "Accept-Ranges" (AcceptRanges obj);;
          match ContentLength obj with
          | Some n => w_Header_Set "Content-Length" (FormatInt n)
          | None => mret tt
          end;;
          match LastModified obj with
          | Some t => w_Header_Set "Last-Modified" (FormatHTTPTime t)
          | None => mret tt
          end;;
          WriteHeader StatusOK;;
          if decide (Method r ≠ MethodHead) then Write (ObjBody obj) else mret tt
      end.
Proof. by apply fallback_budget_decreases. Qed.

(** ** The routes of [main]

    The handlers are those registered in [main]; [FindRoute] is the route the
    chi router selects among them: a GET is served by the most specific of
    [/healthz], [/manifests/*], [/apps/*] and [/*]; only [/*] is registered
    for HEAD; any other method finds no endpoint. *)

Definition healthzHandler : M unit :=
  WriteHeader StatusOK;;
  Write "OK".

(** /manifests/* -> /{prefix}{original} *)
Definition manifestsHandler (r : Request) (s3c : S3Client)
  (cfg : FrontendAssetProxyConfig) : M unit :=
  let full := JoinPath (BucketPathPrefix cfg) (URL_Path r) in
  ProxyS3 r s3c cfg full.

(** /apps/* -> /{prefix}/data/{rest} *)
Definition appsHandler (r : Request) (s3c : S3Client)
  (cfg : FrontendAssetProxyConfig) : M unit :=
  let trimmed := GoStrings.TrimPrefix (URL_Path r) "/apps" in
  let full := JoinPath (BucketPathPrefix cfg) ("/data" +:+ trimmed) in
  ProxyS3 r s3c cfg full.

(** handle HEAD requests *)
Definition headHandler (r : Request) (s3c : S3Client)
  (cfg : FrontendAssetProxyConfig) : M unit :=
  let full := JoinPath (BucketPathPrefix cfg) ("/data" +:+ URL_Path r) in
  ProxyS3 r s3c cfg full.

(** fallback: prepend {prefix}/data *)
Definition fallbackHandler (r : Request) (s3c : S3Client)
  (cfg : FrontendAssetProxyConfig) : M unit :=
  let full := JoinPath (BucketPathPrefix cfg) ("/data" +:+ URL_Path r) in
  ProxyS3 r s3c cfg full.

(** Return 405 for unsupported methods on matched routes *)
Definition methodNotAllowedHandler : M unit :=
  w_Header_Set "Allow" "GET, HEAD";;
  http_Error (StatusText StatusMethodNotAllowed) StatusMethodNotAllowed.

(** [middleware.URLFormat]: the routing path is the URL path without the
    extension of its last segment (the URL path itself is left as it is). *)
Definition URLFormat_RoutePath (path : string) : string :=
  if 0 <? GoStrings.IndexByte path "." then
    let base := GoStrings.LastIndexByte path "/" in
    let idx := GoStrings.LastIndexByte (GoStrings.drop (Z.to_nat base) path) "." in
    if 0 <? idx then GoStrings.take (Z.to_nat (idx + base)) path else path
  else path.

Inductive Route : Type :=
| RouteHealthz
| RouteManifests
| RouteApps
| RouteHead
| RouteFallback
| RouteMethodNotAllowed.

Definition FindRoute (method routePath : string) : Route :=
  if String.eqb method MethodGet then
    if String.eqb routePath "/healthz" then RouteHealthz
    else if GoStrings.HasPrefix routePath "/manifests/" then RouteManifests
    else if GoStrings.HasPrefix routePath "/apps/" then RouteApps
    else RouteFallback
  else if String.eqb method MethodHead then RouteHead
  else RouteMethodNotAllowed.

(** [middleware.Recoverer]: a panic of the handler becomes a 500. *)
Definition Recoverer (r : Request) (next : M unit) : M unit :=
  λ σ, match next σ with
       | (Panic _, σ') =>
           (if decide (Header_Get (Req_Header r) "Connection" ≠ "Upgrade")
            then WriteHeader StatusInternalServerError else mret tt) σ'
       | done => done
       end.

(** The router of [main] serving one request. *)
Definition ServeHTTP (cfg : FrontendAssetProxyConfig) (s3c : S3Client)
  (r : Request) : M unit :=
  Recoverer r
    match FindRoute (Method r) (URLFormat_RoutePath (URL_Path r)) with
    | RouteHealthz => healthzHandler
    | RouteManifests => manifestsHandler r s3c cfg
    | RouteApps => appsHandler r s3c cfg
    | RouteHead => headHandler r s3c cfg
    | RouteFallback => fallbackHandler r s3c cfg
    | RouteMethodNotAllowed => methodNotAllowedHandler
    end.

End Proxy.

(** The world a handler starts in: the given writer, no upstream request
    issued yet. *)
Definition start (rw : ResponseRecorder) : World := {| w := rw; calls := [] |}.

(** ** Package [config]: reading the environment *)

(** The environment of the process: the variables that are set, with their
    values. *)
Abbreviation Env := (gmap string string).

(** [os.Getenv]: the value of the variable, empty when it is not set. *)
Definition Getenv (env : Env) (key : string) : string :=
  default "" (env !! key).

Definition getEnv (env : Env) (key def : string) : string :=
  let v := Getenv env key in
  if decide (v ≠ "") then v else def.

(** [strconv.Atoi]: an optional sign and decimal digits, at least one, of an
    integer that fits 64 bits; anything else is an error ([None]). *)
Definition Atoi (s : string) : option Z :=
  let digits (d : string) : option Z := Z.of_uint <$> NilZero.uint_of_string d in
  let parsed :=
    match s with
    | EmptyString => None
    | String c rest =>
        if Ascii.eqb c "-" then Z.opp <$> digits rest
        else if Ascii.eqb c "+" then digits rest
        else digits s
    end in
  n ← parsed;
  if (- 2 ^ 63 <=? n) && (n <? 2 ^ 63) then Some n else None.

Definition parseInt (v : string) (def : Z) : Z :=
  match Atoi v with
  | Some i => i
  | None => def
  end.

(** [time.ParseDuration] is taken as given; a duration is a number of
    nanoseconds. *)
Class Durations : Type := {
  ParseDuration : string → option Z;
}.

Definition parseDuration `{Durations} (v : string) : Z :=
  match ParseDuration v with
  | Some d => d
  | None => 0
  end.

(** The flags of [aws.ClientLogMode], a 64-bit set, are taken as given. *)
Class LogModes : Type := {
  LogSigning : Z;
  LogRetries : Z;
  LogRequest : Z;
  LogRequestWithBody : Z;
  LogResponse : Z;
  LogResponseWithBody : Z;
  LogDeprecatedUsage : Z;
}.

(** [strings.ToLower] and [strings.TrimSpace], which follow Unicode, are taken
    as given. *)
Class UnicodeStrings : Type := {
  ToLower : string → string;
  TrimSpace : string → string;
}.

(** [strings.ReplaceAll(s, old, new)] for [old] and [new] of one byte. *)
Fixpoint ReplaceAllByte (s : string) (old new : ascii) : string :=
  match s with
  | EmptyString => EmptyString
  | String c s' =>
      String (if Ascii.eqb c old then new else c) (ReplaceAllByte s' old new)
  end.

(** [strings.Split(s, sep)] for [sep] of one byte: the pieces between the
    separators, one piece at least. *)
Fixpoint SplitByte (s : string) (sep : ascii) : list string :=
  match s with
  | EmptyString => [EmptyString]
  | String c s' =>
      if Ascii.eqb c sep then EmptyString :: SplitByte s' sep
      else
        match SplitByte s' sep with
        | p :: ps => String c p :: ps
        | [] => [String c EmptyString]
        end
  end.

Section ClientLogMode.
Context `{LogModes} `{UnicodeStrings}.

(** The [switch name] of parseClientLogMode: the mode after the name. *)
Definition logModeSwitch (mode : Z) (name : string) : Z :=
  if code_in name [""; "none"] then
    mode (* no-op *)
  else if code_in name ["retries"; "retry"] then
    Z.lor mode LogRetries
  else if code_in name ["request"] then
    Z.lor mode LogRequest
  else if code_in name ["response"] then
    Z.lor mode LogResponse
  else if code_in name ["request_with_body"; "requestbody"; "request_body"] then
    Z.lor mode LogRequestWithBody
  else if code_in name ["response_with_body"; "responsebody"; "response_body"] then
    Z.lor mode LogResponseWithBody
  else if code_in name ["deprecated"; "deprecated_usage"] then
    Z.lor mode LogDeprecatedUsage
  else if code_in name ["signing"; "sig"; "auth"] then
    Z.lor mode LogSigning
  else if code_in name ["all"] then
    Z.lor mode
      (Z.lor (Z.lor (Z.lor (Z.lor (Z.lor (Z.lor
         LogRetries LogRequest) LogResponse) LogRequestWithBody)
         LogResponseWithBody) LogDeprecatedUsage) LogSigning)
  else mode.

(** parseClientLogMode parses a comma/pipe-separated list of aws log flags, or
    a numeric bitmask. *)
Definition parseClientLogMode (v : string) : Z :=
  let defaultMode := Z.lor (Z.lor LogRetries LogRequest) LogResponse in
  if decide (v = "") then defaultMode
  else
    (* Try numeric bitmask first *)
    match Atoi v with
    | Some i => i mod 2 ^ 64
    | None =>
        let acc := ReplaceAllByte v "|" "," in
        let mode :=
          foldl (λ mode p, logModeSwitch mode (TrimSpace (ToLower p)))
            0 (SplitByte acc ",") in
        if mode =? 0 then defaultMode else mode
    end.

End ClientLogMode.

(** FromEnv, for the fields of the configuration that are kept here. *)
Definition FromEnv `{Durations} (env : Env) : FrontendAssetProxyConfig :=
  {| BucketPathPrefix := getEnv env "BUCKET_PATH_PREFIX" "/frontend-assets";
     SPAEntrypointPath := getEnv env "SPA_ENTRYPOINT_PATH" "/index.html";
     ProxiedRequestTimeout := parseDuration (getEnv env "S3_GET_TIMEOUT" "60s") |}.

(** * The vocabulary of the properties

    Nothing below is part of the program: these are the notions the properties
    are stated with, the pieces of ProxyS3 given names, and the doubles the
    examples run on. *)

Definition newline : string := String (ascii_of_nat 10) "".

(** A full object path splits as a bucket and a key: after at most one
    leading slash come a non-empty first segment, a slash, and a non-empty
    rest. *)
Definition splits_as (full bucket key : string) : Prop :=
  (full = bucket +:+ "/" +:+ key ∨ full = "/" +:+ bucket +:+ "/" +:+ key)
  ∧ bucket ≠ "" ∧ key ≠ ""
  ∧ "/"%char ∉ list_ascii_of_string bucket.

(** The five conditional fields of an upstream request. *)
Definition conditionals (input : GetObjectInput)
  : option string * option string * option string * option Time * option Time :=
  (Range input, IfNoneMatch input, IfMatch input,
   IfModifiedSince input, IfUnmodifiedSince input).

(** Some ResponseError of the chain holds an HTTP response. *)
Fixpoint carries_response (err : error) : bool :=
  match err with
  | ResponseError (Some _) _ => true
  | ResponseError None (Some e) => carries_response e
  | wrapError _ e => carries_response e
  | OperationError _ _ (Some e) => carries_response e
  | _ => false
  end.

(** [strings.TrimSuffix] *)
Definition TrimSuffix (s p : string) : string :=
  if GoStrings.HasSuffix s p
  then GoStrings.take (String.length s - String.length p) s
  else s.

(** What a header holds after the proxy has copied an optional field of the
    object: the field alone when the object has it, what was there before
    otherwise. *)
Definition header_after (field : option string) (before : option (list string))
  : option (list string) :=
  match field with
  | Some v => Some [v]
  | None => before
  end.

(** The first upstream request of a run is for this bucket and for this key,
    percent-decoded when it decodes. *)
Definition first_fetch (out : result unit * World) (bucket key : string) : Prop :=
  ∃ input rest,
    calls out.2 = input :: rest
    ∧ Bucket input = bucket
    ∧ Key input = default key (PathUnescape key).

(** ** The response writer, piecewise *)

Definition with_headers (f : Header → Header) (rw : ResponseRecorder)
  : ResponseRecorder :=
  {| Code := Code rw; HeaderMap := f (HeaderMap rw); Body := Body rw;
     wroteHeader := wroteHeader rw |}.

Definition set_opt (key : string) (val : option string) (h : Header) : Header :=
  match val with
  | Some v => Header_Set h key v
  | None => h
  end.

(** What [http.Error] leaves in the header map. *)
Definition errorHeaders (h : Header) : Header :=
  Header_Set
    (Header_Set (Header_Del h "Content-Length")
       "Content-Type" "text/plain; charset=utf-8")
    "X-Content-Type-Options" "nosniff".

(** The writer's operations leave the log of upstream requests alone. *)
Definition keeps_calls {A : Type} (m : M A) : Prop :=
  ∀ σ, calls (m σ).2 = calls σ.

(** ** ProxyS3 in pieces

    The request it builds, what it writes for an object, what it writes for a
    failure, the test that guards the fallback; and one attempt, which is
    ProxyS3 without what follows a failed fetch. *)

Section Pieces.
Context `{HTTPDate}.

Definition newGetObjectInput (r : Request) (bucket key : string) : GetObjectInput :=
  let v_range := Header_Get (Req_Header r) "Range" in
  let v_inm := Header_Get (Req_Header r) "If-None-Match" in
  let v_im := Header_Get (Req_Header r) "If-Match" in
  let v_ims := Header_Get (Req_Header r) "If-Modified-Since" in
  let v_ius := Header_Get (Req_Header r) "If-Unmodified-Since" in
  {| Bucket := bucket;
     Key := key;
     Range := if decide (v_range ≠ "") then Some v_range else None;
     IfNoneMatch := if decide (v_inm ≠ "") then Some v_inm else None;
     IfMatch := if decide (v_im ≠ "") then Some v_im else None;
     IfModifiedSince := if decide (v_ims ≠ "") then ParseTime v_ims else None;
     IfUnmodifiedSince := if decide (v_ius ≠ "") then ParseTime v_ius else None |}.

Definition writeObject (r : Request) (obj : GetObjectOutput) : M unit :=
  w_Header_Set "Vary" "Accept-Encoding";;
  setHeaderFromStringPtr "Content-Type" (ContentType obj);;
  setHeaderFromStringPtr "ETag" (ETag obj);;
  setHeaderFromStringPtr "Cache-Control" (CacheControl obj);;
  setHeaderFromStringPtr "Content-Encoding" (ContentEncoding obj);;
  setHeaderFromStringPtr "Content-Disposition" (ContentDisposition obj);;
  setHeaderFromStringPtr "Content-Language" (ContentLanguage obj);;
  setHeaderFromStringPtr "Expires" (ExpiresString obj);;
  setHeaderFromStringPtr "Accept-Ranges" (AcceptRanges obj);;
  match ContentLength obj with
  | Some n => w_Header_Set "Content-Length" (FormatInt n)
  | None => mret tt
  end;;
  match LastModified obj with
  | Some t => w_Header_Set "Last-Modified" (FormatHTTPTime t)
  | None => mret tt
  end;;
  WriteHeader StatusOK;;
  if decide (Method r ≠ MethodHead) then Write (ObjBody obj) else mret tt.

Definition writeFailure (status : Z) : M unit := http_Error (StatusText status) status.

Definition spaPath (cfg : FrontendAssetProxyConfig) : string :=
  JoinPath (BucketPathPrefix cfg) (SPAEntrypointPath cfg).

Definition fallback_guard (cfg : FrontendAssetProxyConfig) (full : string)
  (status : Z) : bool :=
  ((status =? StatusNotFound) || (status =? StatusForbidden))
  && bool_decide (SPAEntrypointPath cfg ≠ "")
  && bool_decide (full ≠ spaPath cfg).

Definition attempt (r : Request) (s3c : S3Client) (full : string)
  (onError : error → M unit) : M unit :=
  let path := GoStrings.TrimPrefix full "/" in
  let idx := GoStrings.IndexByte path "/" in
  if (idx <=? 0) || (idx >=? GoStrings.len path - 1) then
    http_Error "bad request" StatusBadRequest
  else
    let bucket := GoStrings.take (Z.to_nat idx) path in
    let key := GoStrings.drop (Z.to_nat (idx + 1)) path in
    let key := match PathUnescape key with Some ukey => ukey | None => key end in
    res ← GetObject s3c (newGetObjectInput r bucket key);
    match res with
    | inl obj => writeObject r obj
    | inr err => onError err
    end.

(** What a served object leaves in the header map. *)
Definition objectHeaders (obj : GetObjectOutput) (h : Header) : Header :=
  set_opt "Last-Modified" (FormatHTTPTime <$> LastModified obj)
    (set_opt "Content-Length" (FormatInt <$> ContentLength obj)
       (set_opt "Accept-Ranges" (AcceptRanges obj)
          (set_opt "Expires" (ExpiresString obj)
             (set_opt "Content-Language" (ContentLanguage obj)
                (set_opt "Content-Disposition" (ContentDisposition obj)
                   (set_opt "Content-Encoding" (ContentEncoding obj)
                      (set_opt "Cache-Control" (CacheControl obj)
                         (set_opt "ETag" (ETag obj)
                            (set_opt "Content-Type" (ContentType obj)
                               (Header_Set h "Vary" "Accept-Encoding")))))))))).

(** The test on the resolved path that answers 400. *)
Definition rejects (full : string) : bool :=
  let path := GoStrings.TrimPrefix full "/" in
  let idx := GoStrings.IndexByte path "/" in
  (idx <=? 0) || (idx >=? GoStrings.len path - 1).

(** The request ProxyS3 builds for an accepted path. *)
Definition resolvedInput (r : Request) (full : string) : GetObjectInput :=
  let path := GoStrings.TrimPrefix full "/" in
  let idx := GoStrings.IndexByte path "/" in
  let key := GoStrings.drop (Z.to_nat (idx + 1)) path in
  newGetObjectInput r (GoStrings.take (Z.to_nat idx) path)
    (match PathUnescape key with Some ukey => ukey | None => key end).

(** The six ways a request is served from [start rw]: each gives the
    operation of the writer that ends the serving and the upstream requests
    sent before it. *)
Inductive served (r : Request) (s3c : S3Client) (cfg : FrontendAssetProxyConfig)
  (full : string) (rw : ResponseRecorder) : result unit * World → Prop :=
| served_rejected :
    rejects full = true →
    served r s3c cfg full rw
      (http_Error "bad request" StatusBadRequest (start rw))
| served_object obj :
    rejects full = false →
    GetObjectFunc s3c [] (resolvedInput r full) = inl obj →
    served r s3c cfg full rw
      (writeObject r obj {| w := rw; calls := [resolvedInput r full] |})
| served_failure err :
    rejects full = false →
    GetObjectFunc s3c [] (resolvedInput r full) = inr err →
    fallback_guard cfg full (s3ErrorToStatus err) = false →
    served r s3c cfg full rw
      (writeFailure (s3ErrorToStatus err) {| w := rw; calls := [resolvedInput r full] |})
| served_fallback_rejected err :
    rejects full = false →
    GetObjectFunc s3c [] (resolvedInput r full) = inr err →
    fallback_guard cfg full (s3ErrorToStatus err) = true →
    rejects (spaPath cfg) = true →
    served r s3c cfg full rw
      (http_Error "bad request" StatusBadRequest
         {| w := rw; calls := [resolvedInput r full] |})
| served_fallback_object err obj :
    rejects full = false →
    GetObjectFunc s3c [] (resolvedInput r full) = inr err →
    fallback_guard cfg full (s3ErrorToStatus err) = true →
    rejects (spaPath cfg) = false →
    GetObjectFunc s3c [resolvedInput r full] (resolvedInput r (spaPath cfg))
      = inl obj →
    served r s3c cfg full rw
      (writeObject r obj
         {| w := rw;
            calls := [resolvedInput r full; resolvedInput r (spaPath cfg)] |})
| served_fallback_failure err err' :
    rejects full = false →
    GetObjectFunc s3c [] (resolvedInput r full) = inr err →
    fallback_guard cfg full (s3ErrorToStatus err) = true →
    rejects (spaPath cfg) = false →
    GetObjectFunc s3c [resolvedInput r full] (resolvedInput r (spaPath cfg))
      = inr err' →
    served r s3c cfg full rw
      (writeFailure (s3ErrorToStatus err')
         {| w := rw;
            calls := [resolvedInput r full; resolvedInput r (spaPath cfg)] |}).

End Pieces.

(** ** Fixtures: the doubles the examples below run on *)

(** An HTTP-date codec that knows the one date the tests use. *)
Definition testDate : HTTPDate :=
  {| ParseTime := λ s,
       if String.eqb s "Wed, 21 Oct 2015 07:28:00 GMT" then Some 1445412480
       else None;
     FormatHTTPTime := λ _, "Wed, 21 Oct 2015 07:28:00 GMT" |}.

Definition testObject (body : string) (ctype : option string) : GetObjectOutput :=
  {| ObjBody := body; ContentType := ctype; ETag := None; CacheControl := None;
     ContentEncoding := None; ContentDisposition := None;
     ContentLanguage := None; ExpiresString := None; AcceptRanges := None;
     ContentLength := None; LastModified := None |}.

(** A client that answers every request with the same object. *)
Definition clientServing (obj : GetObjectOutput) : S3Client :=
  {| GetObjectFunc := λ _ _, inl obj |}.

(** A client that fails every request with the same error. *)
Definition clientFailing (err : error) : S3Client :=
  {| GetObjectFunc := λ _ _, inr err |}.

(** A client that fails the first request with [err] and serves [obj] from
    then on. *)
Definition clientFailingOnce (err : error) (obj : GetObjectOutput) : S3Client :=
  {| GetObjectFunc := λ history _,
       match history with
       | [] => inr err
       | _ => inl obj
       end |}.

Definition testConfig (prefix spa : string) : FrontendAssetProxyConfig :=
  {| BucketPathPrefix := prefix; SPAEntrypointPath := spa;
     ProxiedRequestTimeout := 60 |}.

Definition testRequest (method path : string) (h : Header) : Request :=
  {| Method := method; URL_Path := path; Req_Header := h |}.

(** The deployment of the compose file. *)
Definition defaultConfig : FrontendAssetProxyConfig :=
  testConfig "/frontend-assets" "/index.html".

(** An upstream request with no condition. *)
Definition plainInput (bucket key : string) : GetObjectInput :=
  {| Bucket := bucket; Key := key; Range := None; IfNoneMatch := None;
     IfMatch := None; IfModifiedSince := None; IfUnmodifiedSince := None |}.

Definition noSuchKey : error :=
  GenericAPIError "NoSuchKey" "The specified key does not exist.".

Definition accessDenied : error := GenericAPIError "AccessDenied" "Access Denied".

Definition internalError : error :=
  GenericAPIError "InternalError" "Internal Error".

Definition textObject : GetObjectOutput :=
  testObject "test content" (Some "text/plain").

Definition jsonObject : GetObjectOutput :=
  testObject "{}" (Some "application/json").

Definition spaObject : GetObjectOutput :=
  testObject "<html></html>" (Some "text/html").

(** Serving on a new recorder, with the test date codec. *)
Definition serve (r : Request) (s3c : S3Client) (cfg : FrontendAssetProxyConfig)
  (full : string) : result unit * World :=
  @ProxyS3 testDate r s3c cfg full (start NewRecorder).

(** An inbound request that carries a range and an entity-tag condition. *)
Definition conditionalRequest : Request :=
  testRequest "GET" "/unknown/path"
    {[ "Range" := ["bytes=0-100"]; "If-None-Match" := ["v1"] ]}.

(** * Lemmas *)

(** ** s3ErrorToStatus, unfolded once *)

Lemma s3ErrorToStatus_eq (err : error) :
  s3ErrorToStatus err =
    if Is_DeadlineExceeded err then StatusGatewayTimeout
    else match As_ResponseError err with
         | Some (Some resp) => StatusCode resp
         | _ =>
             match As_OperationError err with
             | Some (Some inner) => s3ErrorToStatus inner
             | _ =>
                 match As_APIError err with
                 | Some code => default StatusBadGateway (ErrorCode_switch code)
                 | None => StatusBadGateway
                 end
             end
         end.
Proof.
  funelim (s3ErrorToStatus err);
    repeat match goal with
      | H : ?a = _ |- context [?a] => rewrite H
      end; reflexivity.
Qed.

(** ** Strings *)

Lemma append_empty_r (s : string) : s +:+ "" = s.
Proof.
  induction s as [|b s IH]; [done|].
  change (String b (s +:+ "") = String b s). by f_equal.
Qed.

(** At a non-negative index the string is cut in three: the bytes before the
    first [c], which hold no [c], the [c] itself, and the rest. *)
Lemma IndexByte_split (s : string) (c : ascii) :
  0 ≤ GoStrings.IndexByte s c →
  let i := Z.to_nat (GoStrings.IndexByte s c) in
  s = GoStrings.take i s +:+ String c (GoStrings.drop (S i) s)
  ∧ c ∉ list_ascii_of_string (GoStrings.take i s).
Proof.
  induction s as [|b s IH]; [simpl; lia|].
  cbn [GoStrings.IndexByte].
  destruct (Ascii.eqb_spec b c) as [->|Hbc].
  - intros _. split; [done|]. apply not_elem_of_nil.
  - destruct (Z.ltb_spec (GoStrings.IndexByte s c) 0) as [|Hge]; [lia|].
    intros _. destruct (IH Hge) as [Heq Hnot].
    replace (Z.to_nat (GoStrings.IndexByte s c + 1))
      with (S (Z.to_nat (GoStrings.IndexByte s c))) by lia.
    cbn zeta. set (i := Z.to_nat (GoStrings.IndexByte s c)) in *.
    change (GoStrings.take (S i) (String b s)) with (String b (GoStrings.take i s)).
    change (GoStrings.drop (S (S i)) (String b s)) with (GoStrings.drop (S i) s).
    split.
    + change (String b s = String b (GoStrings.take i s +:+
                String c (GoStrings.drop (S i) s))).
      by f_equal.
    + change (c ∉ b :: list_ascii_of_string (GoStrings.take i s)).
      intros [->|Hin]%elem_of_cons; [done|by apply Hnot].
Qed.

Lemma take_nonempty (n : nat) (s : string) :
  (0 < n)%nat → s ≠ "" → GoStrings.take n s ≠ "".
Proof. destruct n, s; simpl; (lia || done). Qed.

Lemma drop_nonempty (n : nat) (s : string) :
  (n < String.length s)%nat → GoStrings.drop n s ≠ "".
Proof.
  revert s. induction n as [|n IH]; intros [|b s]; simpl; try lia; [done|].
  intros Hlt. apply IH. lia.
Qed.

Lemma TrimPrefix_slash (full : string) :
  full = GoStrings.TrimPrefix full "/"
  ∨ full = "/" +:+ GoStrings.TrimPrefix full "/".
Proof.
  unfold GoStrings.TrimPrefix. destruct full as [|b s]; [by left|].
  cbn [GoStrings.HasPrefix].
  destruct (Ascii.eqb_spec "/" b) as [<-|]; [by right|by left].
Qed.

(** The paths ProxyS3 does not reject are split at their first slash. *)
Lemma accepted_path_splits (full : string) :
  let path := GoStrings.TrimPrefix full "/" in
  let idx := GoStrings.IndexByte path "/" in
  (idx <=? 0) || (idx >=? GoStrings.len path - 1) = false →
  splits_as full (GoStrings.take (Z.to_nat idx) path)
                 (GoStrings.drop (Z.to_nat (idx + 1)) path).
Proof.
  intros path idx Hok.
  apply orb_false_iff in Hok as [Hlo Hhi].
  apply Z.leb_gt in Hlo. rewrite Z.geb_leb in Hhi. apply Z.leb_gt in Hhi.
  destruct (IndexByte_split path "/") as [Heq Hnot]; [fold idx; lia|].
  fold idx in Heq, Hnot.
  replace (Z.to_nat (idx + 1)) with (S (Z.to_nat idx)) by lia.
  assert (path ≠ "") as Hne.
  { intros E. unfold idx in Hlo. rewrite E in Hlo. simpl in Hlo. lia. }
  repeat split.
  - destruct (TrimPrefix_slash full) as [E|E]; fold path in E.
    + left. by rewrite E at 1.
    + right. rewrite E at 1. by rewrite Heq at 1.
  - apply take_nonempty; [lia|done].
  - apply drop_nonempty. unfold GoStrings.len in Hhi. lia.
  - done.
Qed.

Lemma IndexByte_app_first (b k : string) (c : ascii) :
  c ∉ list_ascii_of_string b →
  GoStrings.IndexByte (b +:+ String c k) c = GoStrings.len b.
Proof.
  unfold GoStrings.len. induction b as [|a b IH]; intros Hnot.
  - change ("" +:+ String c k) with (String c k).
    cbn [GoStrings.IndexByte String.length]. by rewrite Ascii.eqb_refl.
  - change (String a b +:+ String c k) with (String a (b +:+ String c k)).
    cbn [GoStrings.IndexByte String.length].
    change (list_ascii_of_string (String a b))
      with (a :: list_ascii_of_string b) in Hnot.
    apply not_elem_of_cons in Hnot as [Hne Hnot].
    destruct (Ascii.eqb_spec a c) as [->|_]; [done|].
    rewrite IH by done.
    destruct (Z.ltb_spec (Z.of_nat (String.length b)) 0); lia.
Qed.

Lemma take_app_length (b s : string) :
  GoStrings.take (String.length b) (b +:+ s) = b.
Proof.
  induction b as [|a b IH]; [by destruct s|].
  change (String a b +:+ s) with (String a (b +:+ s)).
  cbn [String.length GoStrings.take]. by f_equal.
Qed.

Lemma drop_app_succ_length (b k : string) (c : ascii) :
  GoStrings.drop (S (String.length b)) (b +:+ String c k) = k.
Proof.
  induction b as [|a b IH]; [done|].
  change (String a b +:+ String c k) with (String a (b +:+ String c k)).
  by cbn [String.length GoStrings.drop].
Qed.

Lemma length_append (b s : string) :
  String.length (b +:+ s) = (String.length b + String.length s)%nat.
Proof.
  induction b as [|a b IH]; [done|].
  change (String a b +:+ s) with (String a (b +:+ s)).
  cbn [String.length]. by rewrite IH.
Qed.

(** The first slash of a path that splits is where it splits. *)
Lemma split_path_accepted (full bucket key : string) :
  splits_as full bucket key →
  let path := GoStrings.TrimPrefix full "/" in
  let idx := GoStrings.IndexByte path "/" in
  (idx <=? 0) || (idx >=? GoStrings.len path - 1) = false
  ∧ GoStrings.take (Z.to_nat idx) path = bucket
  ∧ GoStrings.drop (Z.to_nat (idx + 1)) path = key.
Proof.
  intros (Hfull & Hb & Hk & Hnot) path idx.
  assert (path = bucket +:+ String "/" key) as Hpath.
  { unfold path, GoStrings.TrimPrefix. destruct Hfull as [->| ->].
    - destruct bucket as [|a b]; [done|].
      change (String a b +:+ "/" +:+ key) with (String a (b +:+ "/" +:+ key)).
      cbn [GoStrings.HasPrefix].
      destruct (Ascii.eqb_spec "/" a) as [<-|_]; [|done].
      exfalso. apply Hnot. apply elem_of_cons. by left.
    - done. }
  assert (idx = GoStrings.len bucket) as Hidx.
  { unfold idx. rewrite Hpath. by apply IndexByte_app_first. }
  assert (0 < GoStrings.len bucket) as Hlenb.
  { unfold GoStrings.len. destruct bucket; [done|]. cbn. lia. }
  assert (0 < GoStrings.len key) as Hlenk.
  { unfold GoStrings.len. destruct key; [done|]. cbn. lia. }
  assert (GoStrings.len path = GoStrings.len bucket + 1 + GoStrings.len key)
    as Hlen.
  { rewrite Hpath. unfold GoStrings.len. rewrite length_append. cbn. lia. }
  repeat split.
  - apply orb_false_iff. split; [apply Z.leb_gt; lia|].
    rewrite Z.geb_leb. apply Z.leb_gt. lia.
  - rewrite Hidx, Hpath. unfold GoStrings.len. rewrite Nat2Z.id.
    apply take_app_length.
  - rewrite Hidx, Hpath. unfold GoStrings.len.
    replace (Z.to_nat (Z.of_nat (String.length bucket) + 1))
      with (S (String.length bucket)) by lia.
    apply drop_app_succ_length.
Qed.

(** ** JoinPath *)

Lemma append_assoc (a b c : string) : (a +:+ b) +:+ c = a +:+ b +:+ c.
Proof.
  induction a as [|x a IH]; [done|].
  change (String x ((a +:+ b) +:+ c) = String x (a +:+ b +:+ c)). by f_equal.
Qed.

Lemma take_drop (n : nat) (s : string) :
  GoStrings.take n s +:+ GoStrings.drop n s = s.
Proof.
  revert s. induction n as [|n IH]; intros [|x s]; try done.
  cbn [GoStrings.take GoStrings.drop].
  change (String x (GoStrings.take n s +:+ GoStrings.drop n s) = String x s).
  by f_equal.
Qed.

Lemma HasSuffix_slash (a : string) :
  GoStrings.HasSuffix a "/" = true → a = TrimSuffix a "/" +:+ "/".
Proof.
  intros Hs. unfold TrimSuffix. rewrite Hs.
  unfold GoStrings.HasSuffix in Hs. cbn [String.length] in *.
  destruct (1 <=? String.length a)%nat; [|done].
  apply String.eqb_eq in Hs. rewrite <- Hs. by rewrite take_drop.
Qed.

Lemma HasPrefix_slash (b : string) :
  GoStrings.HasPrefix b "/" = true → b = "/" +:+ GoStrings.drop 1 b.
Proof.
  destruct b as [|x b]; [done|]. cbn [GoStrings.HasPrefix].
  by destruct (Ascii.eqb_spec "/" x) as [<-|].
Qed.

(** Whatever slashes [a] ends and [b] begins with, the two are joined by
    exactly one. *)
Lemma JoinPath_normal (a b : string) :
  JoinPath a b = TrimSuffix a "/" +:+ "/" +:+ GoStrings.TrimPrefix b "/".
Proof.
  unfold JoinPath, GoStrings.TrimPrefix.
  destruct (GoStrings.HasSuffix a "/") eqn:Ha,
    (GoStrings.HasPrefix b "/") eqn:Hb; cbn [andb negb].
  - rewrite (HasSuffix_slash a Ha) at 1. by rewrite append_assoc.
  - rewrite (HasSuffix_slash a Ha) at 1. by rewrite append_assoc.
  - unfold TrimSuffix. rewrite Ha. by rewrite (HasPrefix_slash b Hb) at 1.
  - unfold TrimSuffix. by rewrite Ha.
Qed.

Lemma drop_elem (n : nat) (s t : string) (c : ascii) :
  GoStrings.drop n s = String c t → c ∈ list_ascii_of_string s.
Proof.
  revert s. induction n as [|n IH]; intros [|x s]; cbn [GoStrings.drop];
    try done.
  - intros [= -> ->]. apply elem_of_cons. by left.
  - intros Hd. apply elem_of_cons. right. by apply IH.
Qed.

Lemma HasSuffix_slash_false (bucket : string) :
  bucket ≠ "" →
  "/"%char ∉ list_ascii_of_string bucket →
  GoStrings.HasSuffix ("/" +:+ bucket) "/" = false.
Proof.
  intros Hne Hno. unfold GoStrings.HasSuffix.
  change ("/" +:+ bucket) with (String "/" bucket).
  cbn [String.length Nat.leb].
  destruct bucket as [|x b]; [done|]. cbn [String.length Nat.sub].
  change (GoStrings.drop (S (String.length b)) (String "/" (String x b)))
    with (GoStrings.drop (String.length b) (String x b)).
  apply String.eqb_neq. intros Hd. by apply drop_elem in Hd.
Qed.

Lemma TrimPrefix_app (p s : string) : GoStrings.TrimPrefix (p +:+ s) p = s.
Proof.
  unfold GoStrings.TrimPrefix.
  assert (GoStrings.HasPrefix (p +:+ s) p = true) as ->.
  { induction p as [|x p IH]; [done|].
    change (String x p +:+ s) with (String x (p +:+ s)).
    cbn [GoStrings.HasPrefix]. by rewrite Ascii.eqb_refl. }
  induction p as [|x p IH]; [by destruct s|].
  change (String x p +:+ s) with (String x (p +:+ s)).
  by cbn [String.length GoStrings.drop].
Qed.

(** Under a prefix that is one bucket, a path that begins with a slash is
    appended as it is. *)
Lemma JoinPath_under_bucket (bucket b : string) :
  bucket ≠ "" →
  "/"%char ∉ list_ascii_of_string bucket →
  JoinPath ("/" +:+ bucket) ("/" +:+ b) = "/" +:+ bucket +:+ "/" +:+ b.
Proof.
  intros Hne Hno. rewrite JoinPath_normal, TrimPrefix_app.
  unfold TrimSuffix. rewrite HasSuffix_slash_false by done.
  by rewrite append_assoc.
Qed.

(** ** PathUnescape *)

Lemma PathUnescape_plain (s : string) :
  "%"%char ∉ list_ascii_of_string s → PathUnescape s = Some s.
Proof.
  induction s as [|c s IH]; [done|].
  change (list_ascii_of_string (String c s)) with (c :: list_ascii_of_string s).
  intros [Hc Hs]%not_elem_of_cons. cbn [PathUnescape].
  destruct (Ascii.eqb_spec c "%") as [->|_]; [done|].
  by rewrite IH.
Qed.

Lemma PathUnescape_nonempty (s t : string) :
  PathUnescape s = Some t → s ≠ "" → t ≠ "".
Proof.
  destruct s as [|c s]; [done|]. intros Hu _. cbn [PathUnescape] in Hu.
  destruct (Ascii.eqb c "%").
  - destruct s as [|a [|b s]]; try done.
    destruct (ishex a && ishex b); [|done].
    destruct (PathUnescape s); [|done]. by injection Hu as <-.
  - destruct (PathUnescape s); [|done]. by injection Hu as <-.
Qed.

(** ** Running the primitives *)

Lemma bind_GetObject {A : Type} (s3c : S3Client) (input : GetObjectInput)
  (k : GetObjectOutput + error → M A) (σ : World) :
  (GetObject s3c input ≫= k) σ
  = k (GetObjectFunc s3c (calls σ) input)
      {| w := w σ; calls := calls σ ++ [input] |}.
Proof. reflexivity. Qed.

Lemma bind_mret {A B : Type} (a : A) (k : A → M B) (σ : World) :
  (mret a ≫= k) σ = k a σ.
Proof. reflexivity. Qed.

Lemma bind_w_Header_Set {A : Type} (key v : string) (k : unit → M A)
  (rw : ResponseRecorder) (cs : list GetObjectInput) :
  (w_Header_Set key v ≫= k) {| w := rw; calls := cs |}
  = k tt {| w := with_headers (λ h, Header_Set h key v) rw; calls := cs |}.
Proof. reflexivity. Qed.

Lemma bind_w_Header_Del {A : Type} (key : string) (k : unit → M A)
  (rw : ResponseRecorder) (cs : list GetObjectInput) :
  (w_Header_Del key ≫= k) {| w := rw; calls := cs |}
  = k tt {| w := with_headers (λ h, Header_Del h key) rw; calls := cs |}.
Proof. reflexivity. Qed.

Lemma bind_setHeaderFromStringPtr {A : Type} (key : string) (val : option string)
  (k : unit → M A) (rw : ResponseRecorder) (cs : list GetObjectInput) :
  (setHeaderFromStringPtr key val ≫= k) {| w := rw; calls := cs |}
  = k tt {| w := with_headers (set_opt key val) rw; calls := cs |}.
Proof. destruct val, rw; reflexivity. Qed.

Lemma Header_Get_Set (h : Header) (key v : string) :
  Header_Get (Header_Set h key v) key = v.
Proof. unfold Header_Get, Header_Set. by rewrite lookup_insert_eq. Qed.

Lemma Header_Get_Set_ne (h : Header) (key key' v : string) :
  key ≠ key' → Header_Get (Header_Set h key v) key' = Header_Get h key'.
Proof. intros. unfold Header_Get, Header_Set. by rewrite lookup_insert_ne. Qed.

Lemma Header_Get_set_opt_ne (h : Header) (key key' : string) (val : option string) :
  key ≠ key' → Header_Get (set_opt key val h) key' = Header_Get h key'.
Proof. intros. destruct val; [by apply Header_Get_Set_ne|done]. Qed.

Lemma http_Error_run (msg : string) (code : Z) (σ : World) :
  wroteHeader (w σ) = false →
  100 ≤ code ≤ 999 →
  http_Error msg code σ
  = (Ok tt,
     {| w := {| Code := code; HeaderMap := errorHeaders (HeaderMap (w σ));
                Body := Body (w σ) +:+ msg +:+ newline; wroteHeader := true |};
        calls := calls σ |}).
Proof.
  destruct σ as [[c h b wh] cs]. cbn. intros -> Hcode.
  unfold http_Error, WriteHeader, Write, mbind, M_bind, get_w, modify_w. cbn.
  destruct (Z.ltb_spec code 100); [lia|].
  destruct (Z.ltb_spec 999 code); [lia|]. reflexivity.
Qed.

Lemma http_Error_invalid_code (msg : string) (code : Z) (σ : World) :
  wroteHeader (w σ) = false →
  code < 100 ∨ 999 < code →
  (http_Error msg code σ).1 = Panic "invalid WriteHeader code".
Proof.
  destruct σ as [[c h b wh] cs]. cbn. intros -> Hcode.
  unfold http_Error, WriteHeader, Write, mbind, M_bind, get_w, modify_w. cbn.
  destruct (Z.ltb_spec code 100); [done|].
  destruct (Z.ltb_spec 999 code); [done|lia].
Qed.

Create HintDb keeps discriminated.

Lemma keeps_mret {A : Type} (a : A) : keeps_calls (mret a).
Proof. by intros σ. Qed.

Lemma keeps_panic {A : Type} (msg : string) : keeps_calls (@panic A msg).
Proof. by intros σ. Qed.

Lemma keeps_get_w : keeps_calls get_w.
Proof. by intros σ. Qed.

Lemma keeps_modify_w (f : ResponseRecorder → ResponseRecorder) :
  keeps_calls (modify_w f).
Proof. by intros σ. Qed.

Lemma keeps_bind {A B : Type} (m : M A) (k : A → M B) :
  keeps_calls m → (∀ a, keeps_calls (k a)) → keeps_calls (m ≫= k).
Proof.
  intros Hm Hk σ. unfold mbind, M_bind. specialize (Hm σ).
  destruct (m σ) as [[a|msg] σ']; cbn in *; [|done].
  by rewrite Hk.
Qed.

Lemma keeps_if {A : Type} (b : bool) (m1 m2 : M A) :
  keeps_calls m1 → keeps_calls m2 → keeps_calls (if b then m1 else m2).
Proof. by destruct b. Qed.

Lemma keeps_if_decide {A : Type} (P : Prop) `{Decision P} (m1 m2 : M A) :
  keeps_calls m1 → keeps_calls m2 →
  keeps_calls (if decide P then m1 else m2).
Proof. by destruct (decide P). Qed.

#[global] Hint Resolve keeps_mret keeps_panic keeps_get_w keeps_modify_w
  keeps_bind keeps_if keeps_if_decide : keeps.

Lemma keeps_w_Header_Set (key v : string) : keeps_calls (w_Header_Set key v).
Proof. unfold w_Header_Set. auto with keeps. Qed.

Lemma keeps_w_Header_Del (key : string) : keeps_calls (w_Header_Del key).
Proof. unfold w_Header_Del. auto with keeps. Qed.

Lemma keeps_WriteHeader (code : Z) : keeps_calls (WriteHeader code).
Proof. unfold WriteHeader. auto 10 with keeps. Qed.

#[global] Hint Resolve keeps_w_Header_Set keeps_w_Header_Del keeps_WriteHeader
  : keeps.

Lemma keeps_Write (p : string) : keeps_calls (Write p).
Proof. unfold Write. auto 10 with keeps. Qed.

Lemma keeps_setHeaderFromStringPtr (key : string) (val : option string) :
  keeps_calls (setHeaderFromStringPtr key val).
Proof. destruct val; cbn; auto with keeps. Qed.

#[global] Hint Resolve keeps_Write keeps_setHeaderFromStringPtr : keeps.

Lemma keeps_http_Error (msg : string) (code : Z) :
  keeps_calls (http_Error msg code).
Proof. unfold http_Error. auto 10 with keeps. Qed.

#[global] Hint Resolve keeps_http_Error : keeps.

Lemma http_Error_calls (msg : string) (code : Z) (σ : World) :
  calls (http_Error msg code σ).2 = calls σ.
Proof. apply keeps_http_Error. Qed.

(** ** ProxyS3 as two attempts *)

Section Properties.
Context `{HTTPDate}.

(** On the SPA path itself the guard is closed: one attempt, then failure. *)
Lemma ProxyS3_on_spaPath (r : Request) (s3c : S3Client)
  (cfg : FrontendAssetProxyConfig) (σ : World) :
  ProxyS3 r s3c cfg (spaPath cfg) σ
  = attempt r s3c (spaPath cfg) (λ err, writeFailure (s3ErrorToStatus err)) σ.
Proof.
  rewrite ProxyS3_equation_1. unfold attempt, newGetObjectInput, writeObject, writeFailure.
  cbn zeta. destruct (_ || _); [done|].
  rewrite !bind_GetObject.
  destruct (GetObjectFunc _ _ _) as [obj|err]; [done|].
  destruct (_ || _); [|done].
  destruct (decide (SPAEntrypointPath cfg ≠ "")); [|done].
  by destruct (decide (spaPath cfg = _)).
Qed.

(** ProxyS3 is an attempt on the resolved path, followed, when the guard is
    open, by an attempt on the SPA path, and by nothing more. *)
Lemma ProxyS3_attempts (r : Request) (s3c : S3Client)
  (cfg : FrontendAssetProxyConfig) (full : string) (σ : World) :
  ProxyS3 r s3c cfg full σ
  = attempt r s3c full
      (λ err,
         if fallback_guard cfg full (s3ErrorToStatus err) then
           attempt r s3c (spaPath cfg) (λ err', writeFailure (s3ErrorToStatus err'))
         else writeFailure (s3ErrorToStatus err)) σ.
Proof.
  rewrite ProxyS3_equation_1.
  unfold attempt, newGetObjectInput, writeObject, writeFailure, fallback_guard.
  cbn zeta. destruct (_ || _); [done|].
  rewrite !bind_GetObject.
  destruct (GetObjectFunc _ _ _) as [obj|err]; [done|].
  destruct (_ || _); [|done].
  destruct (decide (SPAEntrypointPath cfg ≠ "")) as [?|?].
  2:{ by rewrite bool_decide_eq_false_2. }
  rewrite bool_decide_eq_true_2 by done.
  destruct (decide (full = _)) as [?|?].
  - by rewrite bool_decide_eq_false_2 by (intros ?; done).
  - rewrite bool_decide_eq_true_2 by done. cbn.
    apply ProxyS3_on_spaPath.
Qed.

Lemma writeObject_run (r : Request) (obj : GetObjectOutput) (σ : World) :
  wroteHeader (w σ) = false →
  writeObject r obj σ
  = (Ok tt,
     {| w := {| Code := StatusOK;
                HeaderMap := objectHeaders obj (HeaderMap (w σ));
                Body := Body (w σ) +:+
                        (if decide (Method r = MethodHead) then "" else ObjBody obj);
                wroteHeader := true |};
        calls := calls σ |}).
Proof.
  destruct σ as [rw cs]. cbn [w calls]. intros Hfresh. unfold writeObject.
  rewrite bind_w_Header_Set. rewrite !bind_setHeaderFromStringPtr.
  unfold objectHeaders.
  destruct (ContentLength obj) as [n|], (LastModified obj) as [t|];
    rewrite ?bind_w_Header_Set, ?bind_mret;
    destruct rw as [c h b wh]; cbn in Hfresh; subst wh;
    unfold WriteHeader, Write, mbind, M_bind, get_w, modify_w;
    cbn;
    (destruct (decide (Method r ≠ MethodHead)) as [Hm|Hm];
     destruct (decide (Method r = MethodHead)) as [Hm'|Hm']; try done;
     cbn; rewrite ?append_empty_r; reflexivity).
Qed.

Lemma keeps_writeObject (r : Request) (obj : GetObjectOutput) :
  keeps_calls (writeObject r obj).
Proof.
  unfold writeObject.
  repeat (apply keeps_bind; [|intros _]); auto with keeps.
  - destruct (ContentLength obj); auto with keeps.
  - destruct (LastModified obj); auto with keeps.
Qed.

Lemma writeObject_calls (r : Request) (obj : GetObjectOutput) (σ : World) :
  calls (writeObject r obj σ).2 = calls σ.
Proof. apply keeps_writeObject. Qed.

Lemma objectHeaders_ContentType (obj : GetObjectOutput) (h : Header) (v : string) :
  ContentType obj = Some v →
  Header_Get (objectHeaders obj h) "Content-Type" = v.
Proof.
  intros Hct. unfold objectHeaders.
  rewrite !Header_Get_set_opt_ne by (intros [=]).
  rewrite Hct. apply Header_Get_Set.
Qed.

Lemma attempt_run (r : Request) (s3c : S3Client) (full : string)
  (onError : error → M unit) (σ : World) :
  attempt r s3c full onError σ
  = if rejects full then http_Error "bad request" StatusBadRequest σ
    else
      let σ' := {| w := w σ; calls := calls σ ++ [resolvedInput r full] |} in
      match GetObjectFunc s3c (calls σ) (resolvedInput r full) with
      | inl obj => writeObject r obj σ'
      | inr err => onError err σ'
      end.
Proof.
  unfold attempt, rejects, resolvedInput. cbn zeta.
  destruct (_ || _); [done|]. rewrite bind_GetObject.
  by destruct (GetObjectFunc _ _ _).
Qed.

Lemma ProxyS3_served (r : Request) (s3c : S3Client)
  (cfg : FrontendAssetProxyConfig) (full : string) (rw : ResponseRecorder) :
  served r s3c cfg full rw (ProxyS3 r s3c cfg full (start rw)).
Proof.
  rewrite ProxyS3_attempts, attempt_run. cbn [start w calls app].
  destruct (rejects full) eqn:Hrej; [by constructor|]. cbn zeta.
  destruct (GetObjectFunc s3c [] _) as [obj|err] eqn:Hres; [by constructor|].
  destruct (fallback_guard _ _ _) eqn:Hguard; [|by constructor].
  rewrite attempt_run. cbn [w calls app].
  destruct (rejects (spaPath cfg)) eqn:Hrej'; [by econstructor|]. cbn zeta.
  destruct (GetObjectFunc s3c [_] _) as [obj|err'] eqn:Hres'.
  - by econstructor.
  - by econstructor.
Qed.

(** ** What the specification states about the proxy *)

Lemma rejects_true_iff (full : string) :
  rejects full = true ↔ ∀ bucket key, ¬ splits_as full bucket key.
Proof.
  split.
  - intros Hrej bucket key Hsplit.
    apply split_path_accepted in Hsplit as [Hacc _].
    unfold rejects in Hrej. congruence.
  - intros Hno. destruct (rejects full) eqn:Hrej; [done|].
    exfalso. eapply Hno. by apply accepted_path_splits.
Qed.

Lemma resolvedInput_splits (r : Request) (full : string) :
  rejects full = false →
  ∃ key, splits_as full (Bucket (resolvedInput r full)) key
         ∧ Key (resolvedInput r full) = default key (PathUnescape key).
Proof.
  intros Hacc. eexists. split; [by apply accepted_path_splits|].
  unfold resolvedInput, newGetObjectInput. cbn [Key].
  by destruct (PathUnescape _).
Qed.

Lemma fallback_guard_true (cfg : FrontendAssetProxyConfig) (full : string)
  (status : Z) :
  fallback_guard cfg full status = true ↔
    (status = StatusNotFound ∨ status = StatusForbidden)
    ∧ SPAEntrypointPath cfg ≠ ""
    ∧ full ≠ JoinPath (BucketPathPrefix cfg) (SPAEntrypointPath cfg).
Proof.
  unfold fallback_guard, spaPath.
  rewrite !andb_true_iff, orb_true_iff, !bool_decide_eq_true, !Z.eqb_eq.
  tauto.
Qed.

Lemma fallback_guard_false (cfg : FrontendAssetProxyConfig) (full : string)
  (status : Z) :
  fallback_guard cfg full status = false ↔
    (status ≠ StatusNotFound ∧ status ≠ StatusForbidden)
    ∨ SPAEntrypointPath cfg = ""
    ∨ full = JoinPath (BucketPathPrefix cfg) (SPAEntrypointPath cfg).
Proof.
  rewrite <- not_true_iff_false, fallback_guard_true.
  destruct (decide (SPAEntrypointPath cfg = "")),
    (decide (full = JoinPath (BucketPathPrefix cfg) (SPAEntrypointPath cfg)));
    tauto.
Qed.

(** C6. A full object path that does not split, at its first slash, as a
    non-empty bucket and a non-empty key (no slash, nothing before it, or
    nothing after it) is answered 400 "bad request", and no request is sent
    upstream: the log of upstream requests is as it was. *)
Theorem invalid_path_is_bad_request (r : Request) (s3c : S3Client)
  (cfg : FrontendAssetProxyConfig) (full : string) (σ : World) :
  wroteHeader (w σ) = false →
  (∀ bucket key, ¬ splits_as full bucket key) →
  let out := ProxyS3 r s3c cfg full σ in
  out.1 = Ok tt
  ∧ calls out.2 = calls σ
  ∧ Code (w out.2) = StatusBadRequest
  ∧ Body (w out.2) = Body (w σ) +:+ "bad request" +:+ newline.
Proof.
  intros Hfresh Hno%rejects_true_iff out. unfold out.
  rewrite ProxyS3_attempts, attempt_run, Hno.
  by rewrite http_Error_run.
Qed.

(** Case analysis on how [ProxyS3] served the request from [start rw]. *)
Ltac served_cases r s3c cfg full rw :=
  let Hs := fresh "Hserved" in
  pose proof (ProxyS3_served r s3c cfg full rw) as Hs;
  generalize dependent (ProxyS3 r s3c cfg full (start rw));
  intros ? Hs; destruct Hs; intros.

(** Bring the log of upstream requests of each case to a literal list. *)
Ltac known_calls :=
  unfold writeFailure in *;
  repeat match goal with
    | Hc : context [calls (http_Error _ _ _).2] |- _ =>
        rewrite http_Error_calls in Hc; cbn [start calls] in Hc
    | Hc : context [calls (writeObject _ _ _).2] |- _ =>
        rewrite writeObject_calls in Hc; cbn [start calls] in Hc
    | |- context [calls (http_Error _ _ _).2] =>
        rewrite http_Error_calls; cbn [start calls]
    | |- context [calls (writeObject _ _ _).2] =>
        rewrite writeObject_calls; cbn [start calls]
    end.

Lemma last_of_one {A : Type} (x y : A) (l : list A) :
  [x] = (l ++ [y])%list → l = [] ∧ y = x.
Proof. intros E. apply (app_inj_tail [] l x y) in E as [<- <-]. done. Qed.

Lemma last_of_two {A : Type} (x1 x2 y : A) (l : list A) :
  [x1; x2] = (l ++ [y])%list → l = [x1] ∧ y = x2.
Proof. intros E. apply (app_inj_tail [x1] l x2 y) in E as [<- <-]. done. Qed.


(** C9. When the first fetch fails with a status translated to 403 or 404 and
    either no SPA entry path is configured or the resolved path is the SPA
    entry object path, no second request is sent upstream and the response
    carries the translated status. *)
Theorem closed_guard_returns_failure (r : Request) (s3c : S3Client)
  (cfg : FrontendAssetProxyConfig) (full : string) (rw : ResponseRecorder)
  (in1 : GetObjectInput) (rest : list GetObjectInput) (err : error) :
  wroteHeader rw = false →
  let out := ProxyS3 r s3c cfg full (start rw) in
  calls out.2 = in1 :: rest →
  GetObjectFunc s3c [] in1 = inr err →
  s3ErrorToStatus err = StatusForbidden ∨ s3ErrorToStatus err = StatusNotFound →
  SPAEntrypointPath cfg = ""
  ∨ full = JoinPath (BucketPathPrefix cfg) (SPAEntrypointPath cfg) →
  rest = [] ∧ out.1 = Ok tt ∧ Code (w out.2) = s3ErrorToStatus err.
Proof.
  intros Hfresh out. unfold out. clear out.
  served_cases r s3c cfg full rw; known_calls;
    try discriminate;
    match goal with Hc : _ :: _ = _ :: _ |- _ => injection Hc as <- <- end;
    try congruence;
    try (exfalso;
         match goal with
         | Hg : fallback_guard _ _ _ = true |- _ =>
             apply fallback_guard_true in Hg; tauto
         end).
  assert (err0 = err) as -> by congruence.
  split; [done|].
  rewrite http_Error_run; [done|done|].
  unfold StatusForbidden, StatusNotFound in *. cbn [w]. lia.
Qed.

(** C8, as the code has it. When the fetch that ends the serving fails and no
    fallback follows it, the response carries the translated status, provided
    the response writer accepts it (100..999), and the body is the text of
    that status followed by a newline, as plain text; the number is not part
    of the body. *)
Theorem final_failure_status_and_text (r : Request) (s3c : S3Client)
  (cfg : FrontendAssetProxyConfig) (full : string) (rw : ResponseRecorder)
  (history : list GetObjectInput) (input : GetObjectInput) (err : error) :
  wroteHeader rw = false →
  let out := ProxyS3 r s3c cfg full (start rw) in
  let status := s3ErrorToStatus err in
  calls out.2 = (history ++ [input])%list →
  GetObjectFunc s3c history input = inr err →
  (history = [] →
   (status ≠ StatusNotFound ∧ status ≠ StatusForbidden)
   ∨ SPAEntrypointPath cfg = ""
   ∨ full = JoinPath (BucketPathPrefix cfg) (SPAEntrypointPath cfg)) →
  100 ≤ status ≤ 999 →
  out.1 = Ok tt
  ∧ Code (w out.2) = status
  ∧ Body (w out.2) = Body rw +:+ StatusText status +:+ newline
  ∧ Header_Get (HeaderMap (w out.2)) "Content-Type"
    = "text/plain; charset=utf-8".
Proof.
  intros Hfresh out status. unfold out, status. clear out status.
  served_cases r s3c cfg full rw; known_calls;
    try (by destruct history);
    try match goal with
      | Hc : [_] = _ |- _ => apply last_of_one in Hc as [-> ->]
      | Hc : [_; _] = _ |- _ => apply last_of_two in Hc as [-> ->]
      end;
    try congruence.
  - assert (err0 = err) as -> by congruence.
    rewrite http_Error_run by done. cbn [fst snd w Code Body HeaderMap].
    repeat split. unfold errorHeaders.
    rewrite Header_Get_Set_ne by (intros [=]). apply Header_Get_Set.
  - exfalso.
    match goal with
    | Hg : fallback_guard _ _ _ = true |- _ => apply fallback_guard_true in Hg
    end.
    assert (err0 = err) as -> by congruence.
    match goal with Hh : [] = [] → _ |- _ => specialize (Hh eq_refl) end.
    tauto.
  - assert (err' = err) as -> by congruence.
    rewrite http_Error_run by done. cbn [fst snd w Code Body HeaderMap].
    repeat split. unfold errorHeaders.
    rewrite Header_Get_Set_ne by (intros [=]). apply Header_Get_Set.
Qed.

(** C2, as the code has it. Serving a request sends at most two requests
    upstream. When the first fails with a status translated to 403 or 404 and
    the guard is open (an SPA entry path is configured and differs from the
    resolved path), ProxyS3 is entered once more, on the SPA entry object
    path: if that path splits as a bucket and a key, exactly one more request
    is sent, for that bucket and key, and none after it, whatever its answer;
    if it does not split, no further request is sent and the answer is 400. *)
Theorem at_most_two_fetches (r : Request) (s3c : S3Client)
  (cfg : FrontendAssetProxyConfig) (full : string) (rw : ResponseRecorder) :
  let out := ProxyS3 r s3c cfg full (start rw) in
  let spa := JoinPath (BucketPathPrefix cfg) (SPAEntrypointPath cfg) in
  (length (calls out.2) ≤ 2)%nat
  ∧ ∀ in1 rest err,
      calls out.2 = in1 :: rest →
      GetObjectFunc s3c [] in1 = inr err →
      s3ErrorToStatus err = StatusForbidden
      ∨ s3ErrorToStatus err = StatusNotFound →
      SPAEntrypointPath cfg ≠ "" →
      full ≠ spa →
      (∃ in2 key,
          rest = [in2]
          ∧ splits_as spa (Bucket in2) key
          ∧ Key in2 = default key (PathUnescape key))
      ∨ ((∀ bucket key, ¬ splits_as spa bucket key)
         ∧ rest = []
         ∧ (wroteHeader rw = false → Code (w out.2) = StatusBadRequest)).
Proof.
  intros out spa. unfold out, spa. clear out spa.
  served_cases r s3c cfg full rw; known_calls.
  all: split; [cbn; lia|].
  all: intros in1 rest e Hc Hres Hst Hspa Hne.
  all: try discriminate.
  all: injection Hc as <- <-.
  all: try congruence.
  - exfalso.
    match goal with
    | Hg : fallback_guard _ _ _ = false |- _ => apply fallback_guard_false in Hg
    end.
    assert (err = e) as -> by congruence.
    unfold StatusForbidden, StatusNotFound in *. intuition congruence.
  - right. split; [by apply rejects_true_iff|]. split; [done|].
    intros Hfresh. by rewrite http_Error_run.
  - left. destruct (resolvedInput_splits r (spaPath cfg)) as (key & ? & ?);
      [done|].
    by exists (resolvedInput r (spaPath cfg)), key.
  - left. destruct (resolvedInput_splits r (spaPath cfg)) as (key & ? & ?);
      [done|].
    by exists (resolvedInput r (spaPath cfg)), key.
Qed.

(** C1, as the code has it. The fallback fetch is built from the same inbound
    request as the first fetch: each of Range, If-None-Match and If-Match
    that the request carries is set on both, and the two date conditions are
    set on both when they parse; the fallback request differs from the first
    in its bucket and key only. *)
Theorem fallback_fetch_repeats_conditionals (r : Request) (s3c : S3Client)
  (cfg : FrontendAssetProxyConfig) (full : string) (rw : ResponseRecorder)
  (in1 in2 : GetObjectInput) :
  calls (ProxyS3 r s3c cfg full (start rw)).2 = [in1; in2] →
  let header := Header_Get (Req_Header r) in
  let present (v : string) := if decide (v ≠ "") then Some v else None in
  conditionals in2 = conditionals in1
  ∧ Range in2 = present (header "Range")
  ∧ IfNoneMatch in2 = present (header "If-None-Match")
  ∧ IfMatch in2 = present (header "If-Match")
  ∧ IfModifiedSince in2 = present (header "If-Modified-Since") ≫= ParseTime
  ∧ IfUnmodifiedSince in2 = present (header "If-Unmodified-Since") ≫= ParseTime.
Proof.
  served_cases r s3c cfg full rw; known_calls; try discriminate.
  all: match goal with Hc : [_; _] = [_; _] |- _ => injection Hc as <- <- end.
  all: unfold header, present, conditionals, resolvedInput, newGetObjectInput;
       cbn [Range IfNoneMatch IfMatch IfModifiedSince IfUnmodifiedSince].
  all: repeat split; by repeat case_decide.
Qed.

(** C4, as the code has it. With bucket path prefix "/frontend-assets" and SPA
    entry path "/index.html", the fallback fetch is for the object
    "/frontend-assets/index.html": bucket "frontend-assets", key "index.html",
    with no "/data" in between. *)
Theorem fallback_fetch_target (r : Request) (s3c : S3Client) (timeout : Z)
  (full : string) (rw : ResponseRecorder) (in1 in2 : GetObjectInput) :
  let cfg := {| BucketPathPrefix := "/frontend-assets";
                SPAEntrypointPath := "/index.html";
                ProxiedRequestTimeout := timeout |} in
  calls (ProxyS3 r s3c cfg full (start rw)).2 = [in1; in2] →
  JoinPath (BucketPathPrefix cfg) (SPAEntrypointPath cfg)
    = "/frontend-assets/index.html"
  ∧ Bucket in2 = "frontend-assets"
  ∧ Key in2 = "index.html".
Proof.
  intros cfg.
  served_cases r s3c cfg full rw; known_calls; try discriminate.
  all: match goal with Hc : [_; _] = [_; _] |- _ => injection Hc as <- <- end.
  all: done.
Qed.

Lemma Recoverer_calls (r : Request) (m : M unit) (σ : World) :
  calls (Recoverer r m σ).2 = calls (m σ).2.
Proof.
  unfold Recoverer. destruct (m σ) as [[[]|msg] σ']; [done|].
  cbn [snd]. case_decide; [apply keeps_WriteHeader|done].
Qed.

(** C5, as the code has it. With prefix "/frontend-assets", a request
    GET /apps/chrome/navigation.json is served by the [/apps/*] route, which
    strips "/apps" only: the object asked for is
    "/frontend-assets/data/chrome/navigation.json" (bucket "frontend-assets",
    key "data/chrome/navigation.json"). When that fetch succeeds with content
    type application/json, the response has status 200 and the header
    Content-Type: application/json. *)
Theorem apps_route_resolution (s3c : S3Client) (spa : string) (timeout : Z)
  (hdr : Header) (rw : ResponseRecorder) :
  wroteHeader rw = false →
  let cfg := {| BucketPathPrefix := "/frontend-assets";
                SPAEntrypointPath := spa;
                ProxiedRequestTimeout := timeout |} in
  let r := {| Method := MethodGet;
              URL_Path := "/apps/chrome/navigation.json";
              Req_Header := hdr |} in
  let out := ServeHTTP cfg s3c r (start rw) in
  ∃ in1 rest,
    calls out.2 = in1 :: rest
    ∧ Bucket in1 = "frontend-assets"
    ∧ Key in1 = "data/chrome/navigation.json"
    ∧ ∀ obj,
        GetObjectFunc s3c [] in1 = inl obj →
        ContentType obj = Some "application/json" →
        out.1 = Ok tt
        ∧ Code (w out.2) = StatusOK
        ∧ Header_Get (HeaderMap (w out.2)) "Content-Type" = "application/json".
Proof.
  intros Hfresh cfg r out.
  assert (out = Recoverer r
            (ProxyS3 r s3c cfg "/frontend-assets/data/chrome/navigation.json")
            (start rw)) as -> by reflexivity.
  exists (resolvedInput r "/frontend-assets/data/chrome/navigation.json").
  rewrite Recoverer_calls. unfold Recoverer.
  served_cases r s3c cfg "/frontend-assets/data/chrome/navigation.json" rw;
    known_calls; try discriminate.
  all: eexists; split; [reflexivity|]; split; [reflexivity|];
       split; [reflexivity|].
  all: intros obj' Hobj Hct; try congruence.
  assert (obj = obj') as -> by congruence.
  rewrite writeObject_run by done.
  cbn [fst snd w Code HeaderMap]. repeat split.
  by apply objectHeaders_ContentType.
Qed.

(** ** More of ProxyS3: what is sent upstream *)

Lemma resolvedInput_of_split (r : Request) (full bucket key : string) :
  splits_as full bucket key →
  rejects full = false
  ∧ Bucket (resolvedInput r full) = bucket
  ∧ Key (resolvedInput r full) = default key (PathUnescape key).
Proof.
  intros (Hacc & Hb & Hk)%split_path_accepted. split; [exact Hacc|].
  unfold resolvedInput, newGetObjectInput. cbn [Bucket Key].
  rewrite Hb, Hk. split; [done|]. by destruct (PathUnescape key).
Qed.

Lemma resolvedInput_well_formed (r : Request) (full : string) :
  rejects full = false →
  Bucket (resolvedInput r full) ≠ ""
  ∧ ("/"%char ∉ list_ascii_of_string (Bucket (resolvedInput r full)))
  ∧ Key (resolvedInput r full) ≠ "".
Proof.
  intros Hacc.
  destruct (resolvedInput_splits r full Hacc)
    as (key & (_ & Hb & Hk & Hno) & Hkey).
  repeat split; [done|done|]. rewrite Hkey.
  destruct (PathUnescape key) as [ukey|] eqn:Hu; [|done].
  by eapply PathUnescape_nonempty.
Qed.

Lemma first_call (r : Request) (s3c : S3Client) (cfg : FrontendAssetProxyConfig)
  (full : string) (rw : ResponseRecorder) :
  rejects full = false →
  ∃ rest, calls (ProxyS3 r s3c cfg full (start rw)).2
          = resolvedInput r full :: rest.
Proof.
  served_cases r s3c cfg full rw; known_calls; try congruence; by eexists.
Qed.

(** X2. A full object path that splits as a bucket and a key is always sent
    upstream: the first upstream request is for that bucket and for the key
    percent-decoded, or for the key as it is when it does not decode; a key
    with no percent sign is sent unchanged. *)
Theorem valid_path_is_fetched (r : Request) (s3c : S3Client)
  (cfg : FrontendAssetProxyConfig) (full bucket key : string)
  (rw : ResponseRecorder) :
  splits_as full bucket key →
  ∃ input rest,
    calls (ProxyS3 r s3c cfg full (start rw)).2 = input :: rest
    ∧ Bucket input = bucket
    ∧ Key input = default key (PathUnescape key)
    ∧ ("%"%char ∉ list_ascii_of_string key → Key input = key).
Proof.
  intros (Hacc & Hb & Hk)%(resolvedInput_of_split r).
  destruct (first_call r s3c cfg full rw Hacc) as [rest Hcalls].
  exists (resolvedInput r full), rest. repeat split; try done.
  intros Hplain. by rewrite Hk, PathUnescape_plain.
Qed.

(** X3. Every request sent upstream names a non-empty bucket that holds no
    slash and a non-empty key, whatever the path, the configuration and the
    answers of the object store. *)
Theorem upstream_requests_well_formed (r : Request) (s3c : S3Client)
  (cfg : FrontendAssetProxyConfig) (full : string) (rw : ResponseRecorder)
  (input : GetObjectInput) :
  input ∈ calls (ProxyS3 r s3c cfg full (start rw)).2 →
  Bucket input ≠ ""
  ∧ ("/"%char ∉ list_ascii_of_string (Bucket input))
  ∧ Key input ≠ "".
Proof.
  served_cases r s3c cfg full rw; known_calls;
    repeat match goal with
      | Hin : _ ∈ [] |- _ => by apply elem_of_nil in Hin
      | Hin : _ ∈ _ :: _ |- _ => apply elem_of_cons in Hin as [->|Hin]
      end;
    by apply resolvedInput_well_formed.
Qed.

(** X4. A first fetch that fails with a status translated to anything but
    403 and 404 (a timeout, a server error, a failed precondition) is never
    followed by a second upstream request, whatever the configuration. *)
Theorem other_failures_are_not_retried (r : Request) (s3c : S3Client)
  (cfg : FrontendAssetProxyConfig) (full : string) (rw : ResponseRecorder)
  (in1 : GetObjectInput) (rest : list GetObjectInput) (err : error) :
  calls (ProxyS3 r s3c cfg full (start rw)).2 = in1 :: rest →
  GetObjectFunc s3c [] in1 = inr err →
  s3ErrorToStatus err ≠ StatusForbidden →
  s3ErrorToStatus err ≠ StatusNotFound →
  rest = [].
Proof.
  served_cases r s3c cfg full rw; known_calls; try discriminate;
    match goal with Hc : _ :: _ = _ :: _ |- _ => injection Hc as <- <- end;
    try done;
    exfalso;
    match goal with
    | Hg : fallback_guard _ _ _ = true |- _ =>
        apply fallback_guard_true in Hg as ([Hs|Hs] & _ & _)
    end;
    match goal with
    | H1 : GetObjectFunc _ [] _ = inr ?e, H2 : GetObjectFunc _ [] _ = inr _ |- _ =>
        rewrite H1 in H2; injection H2 as <-
    end; congruence.
Qed.

Lemma WriteHeader_valid (code : Z) (σ : World) :
  100 ≤ code ≤ 999 →
  (WriteHeader code σ).1 = Ok tt
  ∧ wroteHeader (w (WriteHeader code σ).2) = true.
Proof.
  intros Hcode. destruct σ as [[c h b wh] cs].
  unfold WriteHeader, mbind, M_bind, get_w, modify_w. cbn.
  destruct wh; [done|].
  destruct (Z.ltb_spec code 100); [lia|].
  by destruct (Z.ltb_spec 999 code); [lia|].
Qed.

Lemma http_Error_invalid_code_writer (msg : string) (code : Z) (σ : World) :
  wroteHeader (w σ) = false →
  code < 100 ∨ 999 < code →
  wroteHeader (w (http_Error msg code σ).2) = false.
Proof.
  destruct σ as [[c h b wh] cs]. cbn. intros -> Hcode.
  unfold http_Error, WriteHeader, Write, mbind, M_bind, get_w, modify_w. cbn.
  destruct (Z.ltb_spec code 100); [done|].
  destruct (Z.ltb_spec 999 code); [done|lia].
Qed.

(** A handler has answered when it has returned with the status line
    written, and has panicked before answering when it has panicked with the
    status line still to write. *)
Definition answered (out : result unit * World) : Prop :=
  out.1 = Ok tt ∧ wroteHeader (w out.2) = true ∧ 100 ≤ Code (w out.2) ≤ 999.

Definition panicked_before_answering (out : result unit * World) : Prop :=
  (∃ msg, out.1 = Panic msg) ∧ wroteHeader (w out.2) = false.

(** From a new writer, ProxyS3 either answers or panics before answering. *)
Lemma ProxyS3_answers_or_panics (r : Request) (s3c : S3Client)
  (cfg : FrontendAssetProxyConfig) (full : string) (rw : ResponseRecorder) :
  wroteHeader rw = false →
  let out := ProxyS3 r s3c cfg full (start rw) in
  answered out ∨ panicked_before_answering out.
Proof.
  intros Hfresh out. unfold out, answered, panicked_before_answering. clear out.
  served_cases r s3c cfg full rw; unfold writeFailure;
    match goal with
    | |- context [writeObject _ _ _] =>
        left; rewrite writeObject_run by done;
        cbn; unfold StatusOK; repeat split; lia
    | |- context [http_Error _ ?code _] =>
        destruct (decide (100 ≤ code ≤ 999));
        [ left; rewrite http_Error_run by done; cbn; repeat split; lia
        | right; split;
          [ eexists; apply http_Error_invalid_code; [done|lia]
          | apply http_Error_invalid_code_writer; [done|lia] ] ]
    end.
Qed.

(** X5. When every failure of the object store translates to a status the
    response writer accepts (100..999), ProxyS3 never panics: it returns with
    the status line written, whatever the path and the configuration. *)
Theorem ProxyS3_always_answers (r : Request) (s3c : S3Client)
  (cfg : FrontendAssetProxyConfig) (full : string) (rw : ResponseRecorder) :
  wroteHeader rw = false →
  (∀ history input err,
     GetObjectFunc s3c history input = inr err →
     100 ≤ s3ErrorToStatus err ≤ 999) →
  let out := ProxyS3 r s3c cfg full (start rw) in
  out.1 = Ok tt
  ∧ wroteHeader (w out.2) = true
  ∧ 100 ≤ Code (w out.2) ≤ 999.
Proof.
  intros Hfresh Hvalid out. unfold out. clear out.
  served_cases r s3c cfg full rw; unfold writeFailure;
    match goal with
    | |- context [writeObject _ _ _] =>
        rewrite writeObject_run by done;
        cbn; unfold StatusOK; repeat split; lia
    | |- context [http_Error _ ?code _] =>
        assert (100 ≤ code ≤ 999) as Hcode
          by first [ unfold StatusBadRequest; lia | eapply Hvalid; eassumption ];
        rewrite http_Error_run by done; cbn; repeat split; lia
    end.
Qed.

Lemma resolvedInput_headers (r r' : Request) (full : string) :
  Req_Header r' = Req_Header r → resolvedInput r' full = resolvedInput r full.
Proof. intros Hh. unfold resolvedInput, newGetObjectInput. by rewrite Hh. Qed.

(** X6. The method of the inbound request has no part in what is asked of the
    object store nor in the status and the headers of the answer: two requests
    with the same headers, a HEAD and a GET say, send the same upstream
    requests (a HEAD fetches the whole object too) and get the same status and
    the same headers. *)
Theorem method_changes_the_body_only (r r' : Request) (s3c : S3Client)
  (cfg : FrontendAssetProxyConfig) (full : string) (rw : ResponseRecorder) :
  Req_Header r' = Req_Header r →
  wroteHeader rw = false →
  let out := ProxyS3 r s3c cfg full (start rw) in
  let out' := ProxyS3 r' s3c cfg full (start rw) in
  calls out'.2 = calls out.2
  ∧ out'.1 = out.1
  ∧ Code (w out'.2) = Code (w out.2)
  ∧ HeaderMap (w out'.2) = HeaderMap (w out.2).
Proof.
  intros Hh Hfresh out out'. unfold out, out'. clear out out'.
  rewrite !ProxyS3_attempts, !attempt_run.
  rewrite !(resolvedInput_headers r r') by done.
  destruct (rejects full); [done|]. cbn zeta. cbn [start w calls app].
  destruct (GetObjectFunc s3c [] _) as [obj|err].
  { by rewrite !writeObject_run. }
  destruct (fallback_guard _ _ _); [|done].
  rewrite !attempt_run, !(resolvedInput_headers r r') by done.
  destruct (rejects (spaPath cfg)); [done|]. cbn zeta. cbn [w calls app].
  destruct (GetObjectFunc s3c [_] _) as [obj|err']; [|done].
  by rewrite !writeObject_run.
Qed.

Lemma lookup_set_opt_eq (h : Header) (key : string) (val : option string) :
  set_opt key val h !! key = header_after val (h !! key).
Proof. destruct val; [apply lookup_insert_eq|done]. Qed.

Lemma lookup_set_opt_ne (h : Header) (key key' : string) (val : option string) :
  key ≠ key' → set_opt key val h !! key' = h !! key'.
Proof. intros. destruct val; [by apply lookup_insert_ne|done]. Qed.

(** The headers of a served object, one key at a time. *)
Ltac object_header :=
  unfold objectHeaders, Header_Set;
  repeat first
    [ rewrite lookup_set_opt_eq
    | rewrite lookup_set_opt_ne by (intros [=])
    | rewrite lookup_insert_eq
    | rewrite lookup_insert_ne by (intros [=]) ];
  reflexivity.

Lemma objectHeaders_lookup (obj : GetObjectOutput) (h : Header) :
  objectHeaders obj h !! "Vary" = Some ["Accept-Encoding"]
  ∧ objectHeaders obj h !! "Content-Type"
    = header_after (ContentType obj) (h !! "Content-Type")
  ∧ objectHeaders obj h !! "ETag" = header_after (ETag obj) (h !! "ETag")
  ∧ objectHeaders obj h !! "Cache-Control"
    = header_after (CacheControl obj) (h !! "Cache-Control")
  ∧ objectHeaders obj h !! "Content-Encoding"
    = header_after (ContentEncoding obj) (h !! "Content-Encoding")
  ∧ objectHeaders obj h !! "Content-Disposition"
    = header_after (ContentDisposition obj) (h !! "Content-Disposition")
  ∧ objectHeaders obj h !! "Content-Language"
    = header_after (ContentLanguage obj) (h !! "Content-Language")
  ∧ objectHeaders obj h !! "Expires"
    = header_after (ExpiresString obj) (h !! "Expires")
  ∧ objectHeaders obj h !! "Accept-Ranges"
    = header_after (AcceptRanges obj) (h !! "Accept-Ranges")
  ∧ objectHeaders obj h !! "Content-Length"
    = header_after (FormatInt <$> ContentLength obj) (h !! "Content-Length")
  ∧ objectHeaders obj h !! "Last-Modified"
    = header_after (FormatHTTPTime <$> LastModified obj)
        (h !! "Last-Modified").
Proof. repeat split; object_header. Qed.

(** X7. When the fetch that ends the serving succeeds, the response has
    Vary: Accept-Encoding, and each of Content-Type, ETag, Cache-Control,
    Content-Encoding, Content-Disposition, Content-Language, Expires,
    Accept-Ranges, Content-Length (in decimal) and Last-Modified holds the
    value of the object when the object has one and is left as it was (absent,
    on a new writer) when the object has none; no header is written empty. *)
Theorem served_object_headers (r : Request) (s3c : S3Client)
  (cfg : FrontendAssetProxyConfig) (full : string) (rw : ResponseRecorder)
  (history : list GetObjectInput) (input : GetObjectInput)
  (obj : GetObjectOutput) :
  wroteHeader rw = false →
  let out := ProxyS3 r s3c cfg full (start rw) in
  calls out.2 = (history ++ [input])%list →
  GetObjectFunc s3c history input = inl obj →
  let before := HeaderMap rw in
  let after := HeaderMap (w out.2) in
  after !! "Vary" = Some ["Accept-Encoding"]
  ∧ after !! "Content-Type"
    = header_after (ContentType obj) (before !! "Content-Type")
  ∧ after !! "ETag" = header_after (ETag obj) (before !! "ETag")
  ∧ after !! "Cache-Control"
    = header_after (CacheControl obj) (before !! "Cache-Control")
  ∧ after !! "Content-Encoding"
    = header_after (ContentEncoding obj) (before !! "Content-Encoding")
  ∧ after !! "Content-Disposition"
    = header_after (ContentDisposition obj) (before !! "Content-Disposition")
  ∧ after !! "Content-Language"
    = header_after (ContentLanguage obj) (before !! "Content-Language")
  ∧ after !! "Expires"
    = header_after (ExpiresString obj) (before !! "Expires")
  ∧ after !! "Accept-Ranges"
    = header_after (AcceptRanges obj) (before !! "Accept-Ranges")
  ∧ after !! "Content-Length"
    = header_after (FormatInt <$> ContentLength obj)
        (before !! "Content-Length")
  ∧ after !! "Last-Modified"
    = header_after (FormatHTTPTime <$> LastModified obj)
        (before !! "Last-Modified").
Proof.
  intros Hfresh out. unfold out. clear out.
  served_cases r s3c cfg full rw; known_calls;
    try (by destruct history);
    try match goal with
      | Hc : [_] = _ |- _ => apply last_of_one in Hc as [-> ->]
      | Hc : [_; _] = _ |- _ => apply last_of_two in Hc as [-> ->]
      end;
    try congruence.
  all: match goal with
       | H1 : GetObjectFunc _ ?h ?i = inl _, H2 : GetObjectFunc _ ?h ?i = inl _
         |- _ => rewrite H1 in H2; injection H2 as <-
       end.
  all: rewrite writeObject_run by done;
       cbn [snd w HeaderMap]; apply objectHeaders_lookup.
Qed.

(** ** The handlers of [main] *)

Lemma fetch_under_bucket (r : Request) (s3c : S3Client)
  (cfg : FrontendAssetProxyConfig) (bucket key : string)
  (rw : ResponseRecorder) :
  bucket ≠ "" →
  "/"%char ∉ list_ascii_of_string bucket →
  key ≠ "" →
  first_fetch
    (ProxyS3 r s3c cfg ("/" +:+ bucket +:+ "/" +:+ key) (start rw)) bucket key.
Proof.
  intros Hb Hno Hk.
  destruct (resolvedInput_of_split r ("/" +:+ bucket +:+ "/" +:+ key) bucket key)
    as (Hacc & Hbucket & Hkey).
  { repeat split; try done. by right. }
  destruct (first_call r s3c cfg _ rw Hacc) as [rest Hcalls].
  by exists (resolvedInput r ("/" +:+ bucket +:+ "/" +:+ key)), rest.
Qed.

(** X8. With a bucket path prefix that is a slash and one bucket name, every
    route hands the object store that bucket, and never answers 400 for the
    path: the HEAD and the catch-all routes ask for the key "data" followed by
    the URL path, the [/apps] route for "data" followed by what follows
    "/apps", the [/manifests] route for the URL path without its leading
    slash. *)
Theorem handlers_resolve_under_prefix (r : Request) (s3c : S3Client)
  (cfg : FrontendAssetProxyConfig) (bucket : string) (rw : ResponseRecorder) :
  bucket ≠ "" →
  "/"%char ∉ list_ascii_of_string bucket →
  BucketPathPrefix cfg = "/" +:+ bucket →
  first_fetch (headHandler r s3c cfg (start rw)) bucket ("data" +:+ URL_Path r)
  ∧ first_fetch (fallbackHandler r s3c cfg (start rw)) bucket
      ("data" +:+ URL_Path r)
  ∧ (∀ rest, URL_Path r = "/apps" +:+ rest →
       first_fetch (appsHandler r s3c cfg (start rw)) bucket ("data" +:+ rest))
  ∧ (∀ p, p ≠ "" → URL_Path r = "/" +:+ p →
       first_fetch (manifestsHandler r s3c cfg (start rw)) bucket p).
Proof.
  intros Hb Hno Hprefix.
  unfold headHandler, fallbackHandler, appsHandler, manifestsHandler.
  cbn zeta. rewrite Hprefix.
  change ("/data" +:+ URL_Path r) with ("/" +:+ "data" +:+ URL_Path r).
  rewrite JoinPath_under_bucket by done.
  split; [by apply fetch_under_bucket|].
  split; [by apply fetch_under_bucket|].
  split.
  - intros rest ->. rewrite TrimPrefix_app.
    change ("/data" +:+ rest) with ("/" +:+ "data" +:+ rest).
    rewrite JoinPath_under_bucket by done. by apply fetch_under_bucket.
  - intros p Hp ->. rewrite JoinPath_under_bucket by done.
    by apply fetch_under_bucket.
Qed.

Lemma FindRoute_other_method (method routePath : string) :
  method ≠ MethodGet → method ≠ MethodHead →
  FindRoute method routePath = RouteMethodNotAllowed.
Proof.
  intros Hg Hh. unfold FindRoute.
  by rewrite (proj2 (String.eqb_neq _ _) Hg), (proj2 (String.eqb_neq _ _) Hh).
Qed.

(** X9. A request whose method is neither GET nor HEAD is answered 405 with
    Allow: GET, HEAD and the body "Method Not Allowed", whatever its path,
    and nothing is asked of the object store. *)
Theorem other_methods_are_not_allowed (cfg : FrontendAssetProxyConfig)
  (s3c : S3Client) (r : Request) (rw : ResponseRecorder) :
  Method r ≠ MethodGet →
  Method r ≠ MethodHead →
  wroteHeader rw = false →
  let out := ServeHTTP cfg s3c r (start rw) in
  out.1 = Ok tt
  ∧ calls out.2 = []
  ∧ Code (w out.2) = StatusMethodNotAllowed
  ∧ HeaderMap (w out.2) !! "Allow" = Some ["GET, HEAD"]
  ∧ Body (w out.2) = Body rw +:+ "Method Not Allowed" +:+ newline.
Proof.
  intros Hg Hh Hfresh out. unfold out, ServeHTTP. clear out.
  rewrite FindRoute_other_method by done.
  unfold Recoverer, methodNotAllowedHandler.
  destruct rw as [c h b wh]. cbn in Hfresh. subst wh.
  unfold start. rewrite bind_w_Header_Set.
  rewrite http_Error_run by (done || (unfold StatusMethodNotAllowed; lia)).
  cbn [fst snd w calls Code Body HeaderMap with_headers]. repeat split.
  unfold errorHeaders, Header_Set, Header_Del.
  rewrite !lookup_insert_ne by (intros [=]).
  rewrite lookup_delete_ne by (intros [=]).
  apply lookup_insert_eq.
Qed.

(** X10. The router never panics and never leaves a request without a status:
    from a new writer, and unless the request asks for a connection upgrade,
    it returns with the status line written, a 500 when the handler
    panicked. *)
Theorem router_always_answers (cfg : FrontendAssetProxyConfig) (s3c : S3Client)
  (r : Request) (rw : ResponseRecorder) :
  wroteHeader rw = false →
  Header_Get (Req_Header r) "Connection" ≠ "Upgrade" →
  let out := ServeHTTP cfg s3c r (start rw) in
  out.1 = Ok tt
  ∧ wroteHeader (w out.2) = true
  ∧ 100 ≤ Code (w out.2) ≤ 999.
Proof.
  intros Hfresh Hup out. unfold out, ServeHTTP. clear out.
  assert (∀ m : M unit,
    answered (m (start rw)) ∨ panicked_before_answering (m (start rw)) →
    answered (Recoverer r m (start rw))) as Hrec.
  { intros m Hm. unfold Recoverer, answered, panicked_before_answering in *.
    destruct (m (start rw)) as [[[]|msg] σ'] eqn:Hrun; cbn [fst snd] in *.
    - destruct Hm as [?|[[? ?] _]]; done.
    - destruct Hm as [[? _]|[_ Hw]]; [done|].
      rewrite decide_True by done.
      destruct σ' as [[c h b wh] cs]. cbn in Hw. subst wh.
      unfold WriteHeader, mbind, M_bind, get_w, modify_w. cbn.
      unfold StatusInternalServerError. repeat split; lia. }
  apply Hrec.
  destruct (FindRoute _ _);
    unfold manifestsHandler, appsHandler, headHandler, fallbackHandler;
    try (by apply ProxyS3_answers_or_panics).
  - left. unfold healthzHandler, answered.
    destruct rw as [c h b wh]. cbn in Hfresh. subst wh.
    unfold start, WriteHeader, Write, mbind, M_bind, get_w, modify_w. cbn.
    unfold StatusOK. repeat split; lia.
  - left. unfold methodNotAllowedHandler, answered.
    destruct rw as [c h b wh]. cbn in Hfresh. subst wh.
    unfold start. rewrite bind_w_Header_Set.
    rewrite http_Error_run by (done || (unfold StatusMethodNotAllowed; lia)).
    cbn. unfold StatusMethodNotAllowed. repeat split; lia.
Qed.

End Properties.

(** ** The status translation *)

Lemma no_response_As_ResponseError (err : error) (resp : Response) :
  carries_response err = false → As_ResponseError err ≠ Some (Some resp).
Proof.
  induction err using error_chain_ind; cbn; try done.
  all: destruct resp0; done.
Qed.

(** What lies under the first OperationError keeps the properties of the
    whole chain that the translation looks at. *)
Lemma As_OperationError_inner (err inner : error) :
  As_OperationError err = Some (Some inner) →
  (Is_DeadlineExceeded err = false → Is_DeadlineExceeded inner = false)
  ∧ (carries_response err = false → carries_response inner = false)
  ∧ As_APIError err = As_APIError inner.
Proof.
  induction err as [ | | msg e IH | | resp | resp e IH | sid op | sid op e IH ]
    using error_chain_ind; cbn; try done.
  - intros Hop. destruct (IH Hop) as (? & ? & ?). by destruct resp.
  - by intros [= ->].
Qed.

(** Without deadline and without response, the status is that of the
    ErrorCode switch, or 502 when there is no API error or no case for it. *)
Lemma s3ErrorToStatus_by_code (err : error) :
  Is_DeadlineExceeded err = false →
  carries_response err = false →
  s3ErrorToStatus err
  = match As_APIError err with
    | Some code => default StatusBadGateway (ErrorCode_switch code)
    | None => StatusBadGateway
    end.
Proof.
  remember (chain_length err) as n eqn:Hn. revert err Hn.
  induction n as [n IH] using lt_wf_ind. intros err -> Hde Hresp.
  rewrite s3ErrorToStatus_eq, Hde.
  pose proof (no_response_As_ResponseError err) as Hno.
  destruct (As_ResponseError err) as [[resp|]|] eqn:Hr;
    [by destruct (Hno resp)| |];
    (destruct (As_OperationError err) as [[inner|]|] eqn:Hop; [|done|done]);
    destruct (As_OperationError_inner _ _ Hop) as (Hde' & Hresp' & ->);
    (eapply IH; [by apply As_OperationError_shorter|done|auto|auto]).
Qed.

Lemma code_in_true (code : string) (cases : list string) :
  code_in code cases = true ↔ code ∈ cases.
Proof.
  unfold code_in. rewrite existsb_exists. split.
  - intros (x & Hin & ->%String.eqb_eq). by apply list_elem_of_In.
  - intros Hin. exists code. split; [by apply list_elem_of_In|].
    apply String.eqb_refl.
Qed.

(** C3, as the code has it. The translation is a function defined on every
    error (its recursion through OperationError terminates). A failure that
    is a deadline exceeded gets 504 whatever else it is. A failure that is not
    and that brings no HTTP response of the object store gets the status of
    its error code: the not-found codes 404, the access and credential codes
    403, PreconditionFailed 412, InvalidRange 416, the malformed-request codes
    400, RequestTimeout 408, SlowDown and ServiceUnavailable 503,
    InternalError 500, and 502 for any other code and for a failure with no
    error code. *)
Theorem status_translation_table (err : error) :
  (Is_DeadlineExceeded err = true →
   s3ErrorToStatus err = StatusGatewayTimeout)
  ∧ (Is_DeadlineExceeded err = false →
     carries_response err = false →
     match As_APIError err with
     | Some code =>
         (code ∈ ["NoSuchBucket"; "NoSuchKey"; "NotFound"; "NoSuchVersion"] →
          s3ErrorToStatus err = StatusNotFound)
         ∧ (code ∈ ["AccessDenied"; "Forbidden"; "SignatureDoesNotMatch";
                    "InvalidAccessKeyId"; "ExpiredToken";
                    "RequestTimeTooSkewed"; "InvalidObjectState"] →
            s3ErrorToStatus err = StatusForbidden)
         ∧ (code = "PreconditionFailed" →
            s3ErrorToStatus err = StatusPreconditionFailed)
         ∧ (code = "InvalidRange" →
            s3ErrorToStatus err = StatusRequestedRangeNotSatisfiable)
         ∧ (code ∈ ["AuthorizationHeaderMalformed"; "InvalidRequest";
                    "InvalidArgument"; "MalformedXML"] →
            s3ErrorToStatus err = StatusBadRequest)
         ∧ (code = "RequestTimeout" →
            s3ErrorToStatus err = StatusRequestTimeout)
         ∧ (code ∈ ["SlowDown"; "ServiceUnavailable"] →
            s3ErrorToStatus err = StatusServiceUnavailable)
         ∧ (code = "InternalError" →
            s3ErrorToStatus err = StatusInternalServerError)
         ∧ (code ∉ ["NoSuchBucket"; "NoSuchKey"; "NotFound"; "NoSuchVersion";
                    "AccessDenied"; "Forbidden"; "SignatureDoesNotMatch";
                    "InvalidAccessKeyId"; "ExpiredToken";
                    "RequestTimeTooSkewed"; "InvalidObjectState";
                    "PreconditionFailed"; "InvalidRange";
                    "AuthorizationHeaderMalformed"; "InvalidRequest";
                    "InvalidArgument"; "MalformedXML"; "RequestTimeout";
                    "SlowDown"; "ServiceUnavailable"; "InternalError"] →
            s3ErrorToStatus err = StatusBadGateway)
     | None => s3ErrorToStatus err = StatusBadGateway
     end).
Proof.
  split.
  - intros Hde. by rewrite s3ErrorToStatus_eq, Hde.
  - intros Hde Hresp. rewrite s3ErrorToStatus_by_code by done.
    destruct (As_APIError err) as [code|]; [|done].
    repeat split; intros Hin.
    1-8: by (repeat (apply elem_of_cons in Hin as [->|Hin]; [reflexivity|]);
             try (by apply elem_of_nil in Hin); subst code).
    unfold ErrorCode_switch.
    repeat match goal with
      | |- context [code_in code ?cases] =>
          let E := fresh "E" in
          destruct (code_in code cases) eqn:E;
          [ exfalso; apply Hin; apply code_in_true in E;
            repeat (apply elem_of_cons in E as [->|E];
                    [by (repeat constructor)|]);
            by apply elem_of_nil in E
          | clear E ]
      end.
    done.
Qed.

(** C10, as the code has it. When the failure is not a deadline exceeded and
    the outermost ResponseError of its chain holds an HTTP response, the
    translation is the status code of that response, whatever it is and
    whatever OperationError or error code the chain holds besides. *)
Theorem response_status_passthrough (err : error) (resp : Response) :
  Is_DeadlineExceeded err = false →
  As_ResponseError err = Some (Some resp) →
  s3ErrorToStatus err = StatusCode resp.
Proof. intros Hde Hresp. by rewrite s3ErrorToStatus_eq, Hde, Hresp. Qed.

(** So every integer is a status the translation can give, 304 for one. *)
Lemma any_status_can_be_translated (code : Z) :
  s3ErrorToStatus (ResponseError (Some {| StatusCode := code |}) None) = code.
Proof. by rewrite s3ErrorToStatus_eq. Qed.

(** X11. Wrapping a failure changes nothing to its status: an error wrapped
    with [fmt.Errorf] and [%w], or in an OperationError, translates as the
    error it wraps. *)
Theorem wrapping_keeps_status (msg sid op : string) (err : error) :
  s3ErrorToStatus (wrapError msg err) = s3ErrorToStatus err
  ∧ s3ErrorToStatus (OperationError sid op (Some err)) = s3ErrorToStatus err.
Proof.
  split.
  - by rewrite (s3ErrorToStatus_eq (wrapError msg err)),
      (s3ErrorToStatus_eq err).
  - rewrite (s3ErrorToStatus_eq (OperationError sid op (Some err))).
    cbn [Is_DeadlineExceeded As_ResponseError As_OperationError].
    destruct (Is_DeadlineExceeded err) eqn:Hde;
      [by rewrite s3ErrorToStatus_eq, Hde|].
    destruct (As_ResponseError err) as [[resp|]|] eqn:Hresp; [|done|done].
    by rewrite s3ErrorToStatus_eq, Hde, Hresp.
Qed.

Lemma ErrorCode_switch_range (code : string) (status : Z) :
  ErrorCode_switch code = Some status →
  status ∈ [400; 403; 404; 408; 412; 416; 500; 502; 503; 504].
Proof.
  unfold ErrorCode_switch.
  repeat match goal with
    | |- context [code_in code ?cases] => destruct (code_in code cases)
    end;
    intros [= <-]; vm_compute; set_solver.
Qed.

(** X12. A failure that brings no HTTP response of the object store is
    always translated to one of ten statuses, 400, 403, 404, 408, 412, 416,
    500, 502, 503 and 504: never to a success or a redirection, and never to
    a status the response writer refuses. *)
Theorem status_without_response (err : error) :
  carries_response err = false →
  s3ErrorToStatus err ∈ [400; 403; 404; 408; 412; 416; 500; 502; 503; 504].
Proof.
  intros Hresp. destruct (Is_DeadlineExceeded err) eqn:Hde.
  - rewrite s3ErrorToStatus_eq, Hde. vm_compute. set_solver.
  - rewrite s3ErrorToStatus_by_code by done.
    destruct (As_APIError err) as [code|]; [|vm_compute; set_solver].
    destruct (ErrorCode_switch code) as [status|] eqn:Hsw;
      [by eapply ErrorCode_switch_range|vm_compute; set_solver].
Qed.

(** X1. JoinPath joins its arguments with exactly one slash: whether or not
    the first ends with a slash and the second begins with one, the result is
    the first without one trailing slash, a slash, and the second without one
    leading slash. *)
Theorem JoinPath_one_slash (a b : string) :
  JoinPath a b = TrimSuffix a "/" +:+ "/" +:+ GoStrings.TrimPrefix b "/".
Proof. apply JoinPath_normal. Qed.

(** ** Package [config] *)

Lemma Atoi_digits (s : string) (u : Decimal.uint) :
  NilZero.uint_of_string s = Some u →
  Atoi s
  = if (- 2 ^ 63 <=? Z.of_uint u) && (Z.of_uint u <? 2 ^ 63)
    then Some (Z.of_uint u) else None.
Proof.
  intros Hu. unfold Atoi. destruct s as [|c rest]; [done|].
  assert (Ascii.eqb c "-" = false ∧ Ascii.eqb c "+" = false) as [-> ->].
  { cbn in Hu. destruct (NilEmpty.uint_of_string rest) as [d|]; [|done].
    apply uint_of_char_spec in Hu.
    destruct Hu as [[-> _]|[[-> _]|[[-> _]|[[-> _]|[[-> _]|[[-> _]|[[-> _]|
      [[-> _]|[[-> _]|[-> _]]]]]]]]]]; done. }
  by rewrite Hu.
Qed.

Lemma Atoi_FormatInt (n : Z) :
  - 2 ^ 63 ≤ n < 2 ^ 63 → Atoi (FormatInt n) = Some n.
Proof.
  intros Hn. unfold FormatInt. destruct n as [|p|p].
  - reflexivity.
  - cbn [Z.to_int NilZero.string_of_int].
    rewrite (Atoi_digits _ (Pos.to_uint p))
      by apply NilZero.usu, DecimalPos.Unsigned.to_uint_nonnil.
    unfold Z.of_uint. rewrite DecimalPos.Unsigned.of_to. cbn [Z.of_N].
    destruct (Z.leb_spec (- 2 ^ 63) (Z.pos p)); [|lia].
    destruct (Z.ltb_spec (Z.pos p) (2 ^ 63)); [done|lia].
  - cbn [Z.to_int NilZero.string_of_int]. unfold Atoi.
    rewrite Ascii.eqb_refl.
    rewrite NilZero.usu by apply DecimalPos.Unsigned.to_uint_nonnil.
    cbn [fmap option_fmap option_map mbind option_bind].
    unfold Z.of_uint. rewrite DecimalPos.Unsigned.of_to. cbn [Z.of_N].
    change (- Z.pos p) with (Z.neg p).
    destruct (Z.leb_spec (- 2 ^ 63) (Z.neg p)); [|lia].
    destruct (Z.ltb_spec (Z.neg p) (2 ^ 63)); [done|lia].
Qed.

(** X14. parseInt reads back every 64-bit integer written in decimal by
    [strconv.FormatInt], whatever the default. *)
Theorem parseInt_reads_FormatInt (n def : Z) :
  - 2 ^ 63 ≤ n < 2 ^ 63 → parseInt (FormatInt n) def = n.
Proof. intros Hn. unfold parseInt. by rewrite Atoi_FormatInt. Qed.

Lemma getEnv_nonempty (env : Env) (key def : string) :
  def ≠ "" → getEnv env key def ≠ "".
Proof. intros Hdef. unfold getEnv. by case_decide. Qed.

(** X13. The configuration read from the environment never has an empty
    bucket path prefix nor an empty SPA entry path: a variable that is unset
    or set to the empty string gives the default ("/frontend-assets",
    "/index.html"), so the SPA fallback cannot be switched off through the
    environment. *)
Theorem FromEnv_never_empty `{Durations} (env : Env) :
  BucketPathPrefix (FromEnv env) ≠ ""
  ∧ SPAEntrypointPath (FromEnv env) ≠ ""
  ∧ (Getenv env "BUCKET_PATH_PREFIX" = "" →
     BucketPathPrefix (FromEnv env) = "/frontend-assets")
  ∧ (Getenv env "SPA_ENTRYPOINT_PATH" = "" →
     SPAEntrypointPath (FromEnv env) = "/index.html").
Proof.
  unfold FromEnv. cbn [BucketPathPrefix SPAEntrypointPath].
  repeat split; try (by apply getEnv_nonempty);
    intros Hv; unfold getEnv; rewrite Hv; by case_decide.
Qed.

Section ClientLogModeProperties.
Context `{LogModes} `{UnicodeStrings}.

(** Every flag a name can set. *)
Definition allLogModes : Z :=
  Z.lor (Z.lor (Z.lor (Z.lor (Z.lor (Z.lor
    LogRetries LogRequest) LogResponse) LogRequestWithBody)
    LogResponseWithBody) LogDeprecatedUsage) LogSigning.

(** The bits of [a] are bits of [b]. *)
Definition bits_within (a b : Z) : Prop := Z.lor a b = b.

Lemma bits_within_lor (a b c : Z) :
  bits_within a c → bits_within b c → bits_within (Z.lor a b) c.
Proof.
  unfold bits_within. intros Ha Hb. by rewrite <- Z.lor_assoc, Hb, Ha.
Qed.

Lemma bits_within_l (a b : Z) : bits_within a (Z.lor a b).
Proof. unfold bits_within. by rewrite Z.lor_assoc, Z.lor_diag. Qed.

Lemma bits_within_r (a b : Z) : bits_within b (Z.lor a b).
Proof.
  unfold bits_within. by rewrite (Z.lor_comm a b), Z.lor_assoc, Z.lor_diag.
Qed.

Lemma bits_within_trans (a b c : Z) :
  bits_within a b → bits_within b c → bits_within a c.
Proof.
  unfold bits_within. intros Hab Hbc. by rewrite <- Hbc, Z.lor_assoc, Hab.
Qed.

Lemma bits_within_refl (a : Z) : bits_within a a.
Proof. apply Z.lor_diag. Qed.

Create HintDb bits discriminated.
#[local] Hint Resolve bits_within_lor bits_within_l bits_within_r
  bits_within_refl : bits.

Lemma flags_within_all :
  bits_within LogRetries allLogModes
  ∧ bits_within LogRequest allLogModes
  ∧ bits_within LogResponse allLogModes
  ∧ bits_within LogRequestWithBody allLogModes
  ∧ bits_within LogResponseWithBody allLogModes
  ∧ bits_within LogDeprecatedUsage allLogModes
  ∧ bits_within LogSigning allLogModes.
Proof.
  unfold allLogModes.
  repeat split;
    repeat first [ apply bits_within_refl
                 | apply bits_within_r
                 | apply bits_within_l
                 | eapply bits_within_trans; [|apply bits_within_l] ].
Qed.

Lemma logModeSwitch_within (mode : Z) (name : string) :
  bits_within mode allLogModes →
  bits_within (logModeSwitch mode name) allLogModes.
Proof.
  intros Hm.
  destruct flags_within_all as (? & ? & ? & ? & ? & ? & ?).
  unfold logModeSwitch.
  repeat match goal with
    | |- context [code_in name ?cases] => destruct (code_in name cases)
    end;
    try done; try (by apply bits_within_lor).
  apply bits_within_lor; [done|]. apply bits_within_refl.
Qed.

Lemma foldl_logModeSwitch_within (names : list string) (mode : Z) :
  bits_within mode allLogModes →
  bits_within
    (foldl (λ mode p, logModeSwitch mode (TrimSpace (ToLower p))) mode names)
    allLogModes.
Proof.
  revert mode. induction names as [|p names IH]; intros mode Hm; [done|].
  cbn [foldl]. apply IH. by apply logModeSwitch_within.
Qed.

(** X15. A value that is not a number never switches the logging off: for
    the empty string, for any list of names, known or not, and for "none"
    too, the mode is not zero, as long as the default mode (retries, request
    and response) is not. *)
Theorem log_mode_names_never_off (v : string) :
  Atoi v = None →
  Z.lor (Z.lor LogRetries LogRequest) LogResponse ≠ 0 →
  parseClientLogMode v ≠ 0.
Proof.
  intros Hnum Hdefault. unfold parseClientLogMode. rewrite Hnum.
  case_decide; [done|]. cbn zeta.
  destruct (Z.eqb_spec
    (foldl (λ mode p, logModeSwitch mode (TrimSpace (ToLower p))) 0
       (SplitByte (ReplaceAllByte v "|" ",") ",")) 0); done.
Qed.

(** X16. A value that is not a number sets no bit but those of the seven
    flags that have a name: retries, request, response, the two bodies,
    deprecated usage and signing. *)
Theorem log_mode_names_set_known_flags (v : string) :
  Atoi v = None →
  bits_within (parseClientLogMode v) allLogModes.
Proof.
  intros Hnum. unfold parseClientLogMode. rewrite Hnum.
  destruct flags_within_all as (? & ? & ? & _).
  assert (bits_within (Z.lor (Z.lor LogRetries LogRequest) LogResponse)
            allLogModes) as Hdefault
    by (by repeat apply bits_within_lor).
  case_decide; [done|]. cbn zeta.
  destruct (Z.eqb_spec
    (foldl (λ mode p, logModeSwitch mode (TrimSpace (ToLower p))) 0
       (SplitByte (ReplaceAllByte v "|" ",") ",")) 0); [done|].
  apply foldl_logModeSwitch_within. unfold bits_within. apply Z.lor_0_l.
Qed.

End ClientLogModeProperties.

(** * The properties at work

    Each property applied to a concrete request, and the concrete requests on
    which the code departs from the specification. *)

(** ** On the fixtures *)

Lemma invalid_path_is_bad_request_witness :
  wroteHeader (w (start NewRecorder)) = false
  ∧ (∀ bucket key, ¬ splits_as "/nobucket" bucket key)
  ∧ (serve (testRequest "GET" "/" ∅) (clientServing textObject)
       (testConfig "" "") "/nobucket").1 = Ok tt
  ∧ calls (serve (testRequest "GET" "/" ∅) (clientServing textObject)
             (testConfig "" "") "/nobucket").2 = []
  ∧ Code (w (serve (testRequest "GET" "/" ∅) (clientServing textObject)
               (testConfig "" "") "/nobucket").2) = 400
  ∧ Body (w (serve (testRequest "GET" "/" ∅) (clientServing textObject)
               (testConfig "" "") "/nobucket").2)
    = "bad request" +:+ newline.
Proof.
  assert (∀ bucket key, ¬ splits_as "/nobucket" bucket key) as Hno.
  { apply rejects_true_iff. reflexivity. }
  split; [reflexivity|]. split; [exact Hno|].
  apply (@invalid_path_is_bad_request testDate (testRequest "GET" "/" ∅)
           (clientServing textObject) (testConfig "" "")
           "/nobucket" (start NewRecorder)); [reflexivity|exact Hno].
Defined.


(** The same object asked for with GET comes with its body. *)
Example get_streams_the_body :
  Body (w (serve (testRequest "GET" "/bucket/key.txt" ∅)
             (clientServing textObject) (testConfig "" "")
             "/bucket/key.txt").2) = "test content".
Proof. vm_compute. reflexivity. Qed.

Lemma closed_guard_returns_failure_witness :
  wroteHeader NewRecorder = false
  ∧ calls (serve (testRequest "GET" "/index.html" ∅) (clientFailing noSuchKey)
             defaultConfig "/frontend-assets/index.html").2
    = [plainInput "frontend-assets" "index.html"]
  ∧ GetObjectFunc (clientFailing noSuchKey) []
      (plainInput "frontend-assets" "index.html") = inr noSuchKey
  ∧ (s3ErrorToStatus noSuchKey = StatusForbidden
     ∨ s3ErrorToStatus noSuchKey = StatusNotFound)
  ∧ (SPAEntrypointPath defaultConfig = ""
     ∨ "/frontend-assets/index.html"
       = JoinPath (BucketPathPrefix defaultConfig)
           (SPAEntrypointPath defaultConfig))
  ∧ (serve (testRequest "GET" "/index.html" ∅) (clientFailing noSuchKey)
       defaultConfig "/frontend-assets/index.html").1 = Ok tt
  ∧ Code (w (serve (testRequest "GET" "/index.html" ∅)
               (clientFailing noSuchKey) defaultConfig
               "/frontend-assets/index.html").2) = 404.
Proof.
  split; [reflexivity|]. split; [vm_compute; reflexivity|].
  split; [reflexivity|]. split; [right; reflexivity|].
  split; [right; reflexivity|].
  apply (@closed_guard_returns_failure testDate
           (testRequest "GET" "/index.html" ∅) (clientFailing noSuchKey)
           defaultConfig "/frontend-assets/index.html" NewRecorder
           (plainInput "frontend-assets" "index.html") [] noSuchKey);
    [reflexivity|vm_compute; reflexivity|reflexivity
    |right; reflexivity|right; reflexivity].
Defined.

Lemma final_failure_status_and_text_witness :
  wroteHeader NewRecorder = false
  ∧ calls (serve (testRequest "GET" "/secure-bucket/private/secrets.txt" ∅)
             (clientFailing accessDenied) (testConfig "" "")
             "/secure-bucket/private/secrets.txt").2
    = ([] ++ [plainInput "secure-bucket" "private/secrets.txt"])%list
  ∧ GetObjectFunc (clientFailing accessDenied) []
      (plainInput "secure-bucket" "private/secrets.txt") = inr accessDenied
  ∧ SPAEntrypointPath (testConfig "" "") = ""
  ∧ 100 ≤ s3ErrorToStatus accessDenied ≤ 999
  ∧ Code (w (serve (testRequest "GET" "/secure-bucket/private/secrets.txt" ∅)
               (clientFailing accessDenied) (testConfig "" "")
               "/secure-bucket/private/secrets.txt").2) = 403
  ∧ Body (w (serve (testRequest "GET" "/secure-bucket/private/secrets.txt" ∅)
               (clientFailing accessDenied) (testConfig "" "")
               "/secure-bucket/private/secrets.txt").2)
    = "Forbidden" +:+ newline.
Proof.
  split; [reflexivity|]. split; [vm_compute; reflexivity|].
  split; [reflexivity|]. split; [reflexivity|].
  split; [by vm_compute|].
  destruct (@final_failure_status_and_text testDate
              (testRequest "GET" "/secure-bucket/private/secrets.txt" ∅)
              (clientFailing accessDenied) (testConfig "" "")
              "/secure-bucket/private/secrets.txt" NewRecorder
              [] (plainInput "secure-bucket" "private/secrets.txt")
              accessDenied)
    as (_ & Hcode & Hbody & _);
    [reflexivity|vm_compute; reflexivity|reflexivity
    |intros _; right; left; reflexivity|by vm_compute|].
  split; [exact Hcode|exact Hbody].
Defined.

Lemma at_most_two_fetches_witness :
  calls (serve (testRequest "GET" "/unknown/path" ∅) (clientFailing noSuchKey)
           defaultConfig "/frontend-assets/data/unknown/path").2
  = [plainInput "frontend-assets" "data/unknown/path";
     plainInput "frontend-assets" "index.html"]
  ∧ GetObjectFunc (clientFailing noSuchKey) []
      (plainInput "frontend-assets" "data/unknown/path") = inr noSuchKey
  ∧ (length (calls (serve (testRequest "GET" "/unknown/path" ∅)
                      (clientFailing noSuchKey) defaultConfig
                      "/frontend-assets/data/unknown/path").2) ≤ 2)%nat
  ∧ ((∃ in2 key,
         [plainInput "frontend-assets" "index.html"] = [in2]
         ∧ splits_as "/frontend-assets/index.html" (Bucket in2) key
         ∧ Key in2 = default key (PathUnescape key))
     ∨ ((∀ bucket key, ¬ splits_as "/frontend-assets/index.html" bucket key)
        ∧ [plainInput "frontend-assets" "index.html"] = []
        ∧ (wroteHeader NewRecorder = false →
           Code (w (serve (testRequest "GET" "/unknown/path" ∅)
                      (clientFailing noSuchKey) defaultConfig
                      "/frontend-assets/data/unknown/path").2)
           = StatusBadRequest))).
Proof.
  destruct (@at_most_two_fetches testDate (testRequest "GET" "/unknown/path" ∅)
              (clientFailing noSuchKey) defaultConfig
              "/frontend-assets/data/unknown/path" NewRecorder)
    as [Hlen Hfallback].
  split; [vm_compute; reflexivity|]. split; [reflexivity|].
  split; [exact Hlen|].
  apply (Hfallback (plainInput "frontend-assets" "data/unknown/path")
           [plainInput "frontend-assets" "index.html"] noSuchKey);
    [vm_compute; reflexivity|reflexivity|right; reflexivity
    |discriminate|discriminate].
Defined.

Lemma fallback_fetch_repeats_conditionals_witness :
  calls (serve conditionalRequest (clientFailingOnce noSuchKey spaObject)
           defaultConfig "/frontend-assets/data/unknown/path").2
  = [ {| Bucket := "frontend-assets"; Key := "data/unknown/path";
         Range := Some "bytes=0-100"; IfNoneMatch := Some "v1";
         IfMatch := None; IfModifiedSince := None;
         IfUnmodifiedSince := None |};
      {| Bucket := "frontend-assets"; Key := "index.html";
         Range := Some "bytes=0-100"; IfNoneMatch := Some "v1";
         IfMatch := None; IfModifiedSince := None;
         IfUnmodifiedSince := None |} ]
  ∧ Range {| Bucket := "frontend-assets"; Key := "index.html";
             Range := Some "bytes=0-100"; IfNoneMatch := Some "v1";
             IfMatch := None; IfModifiedSince := None;
             IfUnmodifiedSince := None |}
    = (if decide (Header_Get (Req_Header conditionalRequest) "Range" ≠ "")
       then Some (Header_Get (Req_Header conditionalRequest) "Range")
       else None).
Proof.
  split; [vm_compute; reflexivity|].
  destruct (@fallback_fetch_repeats_conditionals testDate conditionalRequest
              (clientFailingOnce noSuchKey spaObject) defaultConfig
              "/frontend-assets/data/unknown/path" NewRecorder
              {| Bucket := "frontend-assets"; Key := "data/unknown/path";
                 Range := Some "bytes=0-100"; IfNoneMatch := Some "v1";
                 IfMatch := None; IfModifiedSince := None;
                 IfUnmodifiedSince := None |}
              {| Bucket := "frontend-assets"; Key := "index.html";
                 Range := Some "bytes=0-100"; IfNoneMatch := Some "v1";
                 IfMatch := None; IfModifiedSince := None;
                 IfUnmodifiedSince := None |})
    as (_ & Hrange & _); [vm_compute; reflexivity|exact Hrange].
Defined.

Lemma fallback_fetch_target_witness :
  calls (serve (testRequest "GET" "/unknown/path" ∅)
           (clientFailingOnce noSuchKey spaObject) defaultConfig
           "/frontend-assets/data/unknown/path").2
  = [plainInput "frontend-assets" "data/unknown/path";
     plainInput "frontend-assets" "index.html"]
  ∧ Bucket (plainInput "frontend-assets" "index.html") = "frontend-assets"
  ∧ Key (plainInput "frontend-assets" "index.html") = "index.html".
Proof.
  split; [vm_compute; reflexivity|].
  destruct (@fallback_fetch_target testDate (testRequest "GET" "/unknown/path" ∅)
              (clientFailingOnce noSuchKey spaObject) 60
              "/frontend-assets/data/unknown/path" NewRecorder
              (plainInput "frontend-assets" "data/unknown/path")
              (plainInput "frontend-assets" "index.html"))
    as (_ & Hbucket & Hkey); [vm_compute; reflexivity|].
  split; [exact Hbucket|exact Hkey].
Defined.

Lemma apps_route_resolution_witness :
  wroteHeader NewRecorder = false
  ∧ ∃ in1 rest,
      calls (@ServeHTTP testDate defaultConfig (clientServing jsonObject)
               (testRequest "GET" "/apps/chrome/navigation.json" ∅)
               (start NewRecorder)).2 = in1 :: rest
      ∧ Bucket in1 = "frontend-assets"
      ∧ Key in1 = "data/chrome/navigation.json"
      ∧ Code (w (@ServeHTTP testDate defaultConfig (clientServing jsonObject)
                   (testRequest "GET" "/apps/chrome/navigation.json" ∅)
                   (start NewRecorder)).2) = StatusOK
      ∧ Header_Get
          (HeaderMap
             (w (@ServeHTTP testDate defaultConfig (clientServing jsonObject)
                   (testRequest "GET" "/apps/chrome/navigation.json" ∅)
                   (start NewRecorder)).2)) "Content-Type"
        = "application/json".
Proof.
  split; [reflexivity|].
  destruct (@apps_route_resolution testDate (clientServing jsonObject)
              "/index.html" 60 ∅ NewRecorder eq_refl)
    as (in1 & rest & Hcalls & Hbucket & Hkey & Hserved).
  exists in1, rest.
  destruct (Hserved jsonObject eq_refl eq_refl) as (_ & Hcode & Htype).
  repeat split; assumption.
Defined.

Lemma status_translation_table_witness :
  Is_DeadlineExceeded
    (OperationError "S3" "GetObject" (Some (GenericAPIError "SlowDown" "")))
  = false
  ∧ carries_response
      (OperationError "S3" "GetObject" (Some (GenericAPIError "SlowDown" "")))
    = false
  ∧ "SlowDown" ∈ ["SlowDown"; "ServiceUnavailable"]
  ∧ s3ErrorToStatus
      (OperationError "S3" "GetObject" (Some (GenericAPIError "SlowDown" "")))
    = StatusServiceUnavailable.
Proof.
  split; [reflexivity|]. split; [reflexivity|].
  assert ("SlowDown" ∈ ["SlowDown"; "ServiceUnavailable"]) as Hin
    by (apply elem_of_cons; left; reflexivity).
  split; [exact Hin|].
  destruct (status_translation_table
              (OperationError "S3" "GetObject"
                 (Some (GenericAPIError "SlowDown" ""))))
    as [_ Htable].
  specialize (Htable eq_refl eq_refl). cbn in Htable.
  destruct Htable as (_ & _ & _ & _ & _ & _ & Hslow & _).
  exact (Hslow Hin).
Defined.

Lemma response_status_passthrough_witness :
  Is_DeadlineExceeded
    (OperationError "S3" "GetObject"
       (Some (ResponseError (Some {| StatusCode := 304 |})
                (Some (GenericAPIError "NotModified" "Not Modified")))))
  = false
  ∧ As_ResponseError
      (OperationError "S3" "GetObject"
         (Some (ResponseError (Some {| StatusCode := 304 |})
                  (Some (GenericAPIError "NotModified" "Not Modified")))))
    = Some (Some {| StatusCode := 304 |})
  ∧ s3ErrorToStatus
      (OperationError "S3" "GetObject"
         (Some (ResponseError (Some {| StatusCode := 304 |})
                  (Some (GenericAPIError "NotModified" "Not Modified")))))
    = 304.
Proof.
  split; [reflexivity|]. split; [reflexivity|].
  apply (response_status_passthrough
           (OperationError "S3" "GetObject"
              (Some (ResponseError (Some {| StatusCode := 304 |})
                       (Some (GenericAPIError "NotModified" "Not Modified")))))
           {| StatusCode := 304 |}); reflexivity.
Defined.

(** ** Where the code departs from the specification *)

(** Against C1: the request carries Range and If-None-Match, the first fetch
    is answered NoSuchKey (404), and the fallback fetch for the SPA entry
    object carries both conditions again. *)
Lemma fallback_fetch_unconditional_counterexample :
  s3ErrorToStatus noSuchKey = StatusNotFound
  ∧ calls (serve conditionalRequest (clientFailingOnce noSuchKey spaObject)
             defaultConfig "/frontend-assets/data/unknown/path").2
    = [ {| Bucket := "frontend-assets"; Key := "data/unknown/path";
           Range := Some "bytes=0-100"; IfNoneMatch := Some "v1";
           IfMatch := None; IfModifiedSince := None;
           IfUnmodifiedSince := None |};
        {| Bucket := "frontend-assets"; Key := "index.html";
           Range := Some "bytes=0-100"; IfNoneMatch := Some "v1";
           IfMatch := None; IfModifiedSince := None;
           IfUnmodifiedSince := None |} ]
  ∧ conditionals
      {| Bucket := "frontend-assets"; Key := "index.html";
         Range := Some "bytes=0-100"; IfNoneMatch := Some "v1";
         IfMatch := None; IfModifiedSince := None;
         IfUnmodifiedSince := None |}
    ≠ (None, None, None, None, None).
Proof. split; [reflexivity|]. split; [vm_compute; reflexivity|discriminate]. Qed.

(** Against C2: with SPA entry path "/" the SPA entry object path is
    "/frontend-assets/", which has no key. The first fetch fails with 404 and
    the guard is open, yet no fallback fetch is sent: one upstream request in
    all, and the answer is 400. *)
Lemma exactly_one_fallback_fetch_counterexample :
  GetObjectFunc (clientFailing noSuchKey) []
    (plainInput "frontend-assets" "data/unknown/path") = inr noSuchKey
  ∧ s3ErrorToStatus noSuchKey = StatusNotFound
  ∧ SPAEntrypointPath (testConfig "/frontend-assets" "/") ≠ ""
  ∧ "/frontend-assets/data/unknown/path"
    ≠ JoinPath (BucketPathPrefix (testConfig "/frontend-assets" "/"))
        (SPAEntrypointPath (testConfig "/frontend-assets" "/"))
  ∧ calls (serve (testRequest "GET" "/unknown/path" ∅)
             (clientFailing noSuchKey) (testConfig "/frontend-assets" "/")
             "/frontend-assets/data/unknown/path").2
    = [plainInput "frontend-assets" "data/unknown/path"]
  ∧ Code (w (serve (testRequest "GET" "/unknown/path" ∅)
               (clientFailing noSuchKey) (testConfig "/frontend-assets" "/")
               "/frontend-assets/data/unknown/path").2) = 400.
Proof.
  split; [reflexivity|]. split; [reflexivity|]. split; [discriminate|].
  split; [discriminate|]. split; vm_compute; reflexivity.
Qed.

(** Against C3: two failures of the same category, an expired token, neither
    a deadline exceeded, are given different statuses: the one that comes
    with the HTTP response of the object store (400) gets the status of that
    response, not the 403 of its category. *)
Lemma status_by_category_counterexample :
  As_APIError (GenericAPIError "ExpiredToken" "The provided token has expired")
  = Some "ExpiredToken"
  ∧ As_APIError
      (OperationError "S3" "GetObject"
         (Some (ResponseError (Some {| StatusCode := 400 |})
                  (Some (GenericAPIError "ExpiredToken"
                           "The provided token has expired")))))
    = Some "ExpiredToken"
  ∧ s3ErrorToStatus
      (GenericAPIError "ExpiredToken" "The provided token has expired") = 403
  ∧ s3ErrorToStatus
      (OperationError "S3" "GetObject"
         (Some (ResponseError (Some {| StatusCode := 400 |})
                  (Some (GenericAPIError "ExpiredToken"
                           "The provided token has expired"))))) = 400.
Proof. repeat split; reflexivity. Qed.

(** Against C4: with prefix "/frontend-assets" and SPA entry path
    "/index.html" the fallback fetch is for "/frontend-assets/index.html", not
    for "/frontend-assets/data/index.html". *)
Lemma fallback_fetch_target_counterexample :
  calls (serve (testRequest "GET" "/unknown/path" ∅)
           (clientFailingOnce noSuchKey spaObject) defaultConfig
           "/frontend-assets/data/unknown/path").2
  = [plainInput "frontend-assets" "data/unknown/path";
     plainInput "frontend-assets" "index.html"]
  ∧ "/" +:+ Bucket (plainInput "frontend-assets" "index.html") +:+ "/"
        +:+ Key (plainInput "frontend-assets" "index.html")
    ≠ "/frontend-assets/data/index.html".
Proof. split; [vm_compute; reflexivity|discriminate]. Qed.

(** Against C5: GET /apps/chrome/navigation.json asks the object store for
    "/frontend-assets/data/chrome/navigation.json", not for
    "/frontend-assets/data/navigation.json". *)
Lemma apps_route_resolution_counterexample :
  calls (@ServeHTTP testDate defaultConfig (clientServing jsonObject)
           (testRequest "GET" "/apps/chrome/navigation.json" ∅)
           (start NewRecorder)).2
  = [plainInput "frontend-assets" "data/chrome/navigation.json"]
  ∧ "/" +:+ Bucket (plainInput "frontend-assets" "data/chrome/navigation.json")
        +:+ "/"
        +:+ Key (plainInput "frontend-assets" "data/chrome/navigation.json")
    ≠ "/frontend-assets/data/navigation.json".
Proof. split; [vm_compute; reflexivity|discriminate]. Qed.

(** Against C8: a final failure translated to 500 is answered with the body
    "Internal Server Error" and a newline; the number 500 is not in it. *)
Lemma final_failure_body_counterexample :
  calls (serve (testRequest "GET" "/bucket/key.txt" ∅)
           (clientFailing internalError) (testConfig "" "")
           "/bucket/key.txt").2
  = [plainInput "bucket" "key.txt"]
  ∧ Code (w (serve (testRequest "GET" "/bucket/key.txt" ∅)
               (clientFailing internalError) (testConfig "" "")
               "/bucket/key.txt").2) = 500
  ∧ Body (w (serve (testRequest "GET" "/bucket/key.txt" ∅)
               (clientFailing internalError) (testConfig "" "")
               "/bucket/key.txt").2)
    = "Internal Server Error" +:+ newline
  ∧ Body (w (serve (testRequest "GET" "/bucket/key.txt" ∅)
               (clientFailing internalError) (testConfig "" "")
               "/bucket/key.txt").2)
    ≠ "500 Internal Server Error".
Proof.
  split; [vm_compute; reflexivity|]. split; [vm_compute; reflexivity|].
  split; [vm_compute; reflexivity|]. vm_compute. discriminate.
Qed.

(** Against C10: a failure that holds an HTTP response with status 404 and
    wraps a deadline exceeded is translated to 504, not to 404. *)
Lemma response_status_passthrough_counterexample :
  As_ResponseError
    (ResponseError (Some {| StatusCode := 404 |}) (Some DeadlineExceeded))
  = Some (Some {| StatusCode := 404 |})
  ∧ s3ErrorToStatus
      (ResponseError (Some {| StatusCode := 404 |}) (Some DeadlineExceeded))
    = 504
  ∧ s3ErrorToStatus
      (ResponseError (Some {| StatusCode := 404 |}) (Some DeadlineExceeded))
    ≠ StatusCode {| StatusCode := 404 |}.
Proof.
  split; [reflexivity|]. split; [reflexivity|].
  vm_compute. discriminate.
Qed.

(** ** The tests of the repository, on the embedding *)

Example JoinPath_both : JoinPath "/path/" "/to/file" = "/path/to/file".
Proof. reflexivity. Qed.
Example JoinPath_first : JoinPath "/path/" "to/file" = "/path/to/file".
Proof. reflexivity. Qed.
Example JoinPath_second : JoinPath "/path" "/to/file" = "/path/to/file".
Proof. reflexivity. Qed.
Example JoinPath_neither : JoinPath "/path" "to/file" = "/path/to/file".
Proof. reflexivity. Qed.
Example JoinPath_empty_first : JoinPath "" "/to/file" = "/to/file".
Proof. reflexivity. Qed.
Example JoinPath_empty_second : JoinPath "/path/" "" = "/path/".
Proof. reflexivity. Qed.

Example s3ErrorToStatus_NoSuchKey :
  s3ErrorToStatus (GenericAPIError "NoSuchKey" "") = StatusNotFound.
Proof. reflexivity. Qed.

Example s3ErrorToStatus_deadline :
  s3ErrorToStatus DeadlineExceeded = StatusGatewayTimeout.
Proof. reflexivity. Qed.

Example s3ErrorToStatus_unknown :
  s3ErrorToStatus (errorString "unknown error") = StatusBadGateway.
Proof. reflexivity. Qed.

Example s3ErrorToStatus_HTTPError :
  s3ErrorToStatus (GenericAPIError "HTTPError" "HTTP Error") = StatusBadGateway.
Proof. reflexivity. Qed.

Example s3ErrorToStatus_wrapped_SlowDown :
  s3ErrorToStatus
    (OperationError "S3" "GetObject"
       (Some (ResponseError None (Some (GenericAPIError "SlowDown" "")))))
  = StatusServiceUnavailable.
Proof. reflexivity. Qed.

Example ProxyS3_URLEncodedKey :
  calls (serve (testRequest "GET" "/bucket/path/to%20file.txt" ∅)
           (clientServing textObject) (testConfig "" "")
           "/bucket/path/to%20file.txt").2
  = [plainInput "bucket" "path/to file.txt"].
Proof. vm_compute. reflexivity. Qed.

Example ProxyS3_only_bucket :
  Code (w (serve (testRequest "GET" "/" ∅) (clientServing textObject)
             (testConfig "" "") "/bucket/").2) = StatusBadRequest.
Proof. vm_compute. reflexivity. Qed.

Example ProxyS3_empty_path :
  Code (w (serve (testRequest "GET" "/" ∅) (clientServing textObject)
             (testConfig "" "") "").2) = StatusBadRequest.
Proof. vm_compute. reflexivity. Qed.

(** A status the writer refuses makes ProxyS3 panic; the router answers 500. *)
Example ProxyS3_invalid_upstream_status :
  (serve (testRequest "GET" "/bucket/key.txt" ∅)
     (clientFailing (ResponseError (Some {| StatusCode := 42 |}) None))
     (testConfig "" "") "/bucket/key.txt").1
  = Panic "invalid WriteHeader code"
  ∧ Code (w (@ServeHTTP testDate (testConfig "/bucket" "")
               (clientFailing (ResponseError (Some {| StatusCode := 42 |}) None))
               (testRequest "GET" "/key.txt" ∅) (start NewRecorder)).2)
    = StatusInternalServerError.
Proof. split; vm_compute; reflexivity. Qed.

Example ProxyS3_IfModifiedSince :
  calls (serve (testRequest "GET" "/bucket/key.txt"
                  {[ "If-Modified-Since" := ["Wed, 21 Oct 2015 07:28:00 GMT"] ]})
           (clientServing textObject) (testConfig "" "") "/bucket/key.txt").2
  = [ {| Bucket := "bucket"; Key := "key.txt"; Range := None;
         IfNoneMatch := None; IfMatch := None;
         IfModifiedSince := Some 1445412480; IfUnmodifiedSince := None |} ].
Proof. vm_compute. reflexivity. Qed.

(** A date that does not parse is dropped, not an error. *)
Example ProxyS3_malformed_date :
  calls (serve (testRequest "GET" "/bucket/key.txt"
                  {[ "If-Modified-Since" := ["yesterday"] ]})
           (clientServing textObject) (testConfig "" "") "/bucket/key.txt").2
  = [plainInput "bucket" "key.txt"].
Proof. vm_compute. reflexivity. Qed.
